(** * GrQuad: quad classification, quad lists with a lazy w channel,
      and the scene-graph GeometryTransform factory

    A shallow embedding of [src/gpu/GrQuad.h] and of
    [modules/sksg/include/SkSGGeometryTransform.h].

    - C++ [float] is IEEE-754 binary32, taken from [SpecFloat] with
      [prec = 24] and [emax = 128].
    - [float[4]] members are four-lane records; [Sk4f] works on the same
      lanes.
    - [SkTArray] is a [list]; [int] indices and counts are [Z].  Arrays
      are as long as they need to be: running out of memory and counts
      past [INT_MAX] are outside the model.
    - A failed [SkASSERT] and a read outside an array are [None].
    - [sk_sp<T>] is [option T], [nullptr] being [None]. *)

From Stdlib Require Import ZArith List Bool Lia QArith.
From Stdlib Require Import Floats.SpecFloat.
Import ListNotations.

Local Open Scope Z_scope.

(* ================================================================== *)
(** ** binary32 scalars *)

Definition float : Type := spec_float.

Module F32.

Definition prec : Z := 24.
Definition emax : Z := 128.

(** [1.f], [2.f] and [0.5f]. *)
Definition one : float := S754_finite false 8388608 (-23).
Definition two : float := S754_finite false 8388608 (-22).
Definition zero : float := S754_zero false.

Definition mul : float -> float -> float := SFmul prec emax.
Definition div : float -> float -> float := SFdiv prec emax.

(** [a == b], [a != b] and [a < b] on floats. *)
Definition eqb : float -> float -> bool := SFeqb.
Definition neb (a b : float) : bool := negb (SFeqb a b).
Definition ltb : float -> float -> bool := SFltb.

(** A value a C++ [float] object can hold. *)
Definition valid (x : float) : bool := valid_binary prec emax x.

(** [sk_ieee_float_divide(1.f, w)]. *)
Definition recip (w : float) : float := div one w.

End F32.

(** A [float[4]] member, or the four lanes of an [Sk4f]. *)
Record float4 : Type := Float4 { at0 : float; at1 : float; at2 : float; at3 : float }.

Definition float4_get (a : float4) (i : Z) : option float :=
  match i with
  | 0 => Some (at0 a)
  | 1 => Some (at1 a)
  | 2 => Some (at2 a)
  | 3 => Some (at3 a)
  | _ => None
  end.

Definition float4_map (f : float -> float) (a : float4) : float4 :=
  Float4 (f (at0 a)) (f (at1 a)) (f (at2 a)) (f (at3 a)).

Definition float4_map2 (f : float -> float -> float) (a b : float4) : float4 :=
  Float4 (f (at0 a) (at0 b)) (f (at1 a) (at1 b)) (f (at2 a) (at2 b)) (f (at3 a) (at3 b)).

Definition float4_to_list (a : float4) : list float :=
  [at0 a; at1 a; at2 a; at3 a].

Definition float4_valid (a : float4) : bool :=
  F32.valid (at0 a) && F32.valid (at1 a) && F32.valid (at2 a) && F32.valid (at3 a).

(* ================================================================== *)
(** ** Sk4f *)

(** [SkNx.h] is not part of the sources.  The operations used by
    [GrQuad.h] are taken lane by lane as the portable [SkNx<4, float>]
    defines them: [Load], [operator*], the reductions [min]/[max] built
    from [SkTMin]/[SkTMax] over the two halves, [operator!=] and
    [anyTrue].  [invert()] is left open: [GrPerspQuad] takes it as a
    parameter, since a build may compute it as a quotient or as a
    hardware estimate. *)
Module Sk4f.

Definition t : Type := float4.

Definition Load (a : float4) : t := a.
Definition splat (v : float) : t := Float4 v v v v.

Definition mul (a b : t) : t := float4_map2 F32.mul a b.
(** Modelled from the spec: the vector reciprocal as the IEEE quotient
    [1.f / x] in every lane, one admissible [invert()]. *)
Definition invert_ieee (a : t) : t := float4_map F32.recip a.

Definition SkTMin (a b : float) : float := if F32.ltb a b then a else b.
Definition SkTMax (a b : float) : float := if F32.ltb b a then a else b.

Definition min (a : t) : float :=
  SkTMin (SkTMin (at0 a) (at1 a)) (SkTMin (at2 a) (at3 a)).
Definition max (a : t) : float :=
  SkTMax (SkTMax (at0 a) (at1 a)) (SkTMax (at2 a) (at3 a)).

Definition mask : Type := (bool * bool * bool * bool)%type.

Definition ne (a b : t) : mask :=
  (F32.neb (at0 a) (at0 b), F32.neb (at1 a) (at1 b),
   F32.neb (at2 a) (at2 b), F32.neb (at3 a) (at3 b)).

Definition anyTrue (m : mask) : bool :=
  let '(b0, b1, b2, b3) := m in b0 || b1 || b2 || b3.

End Sk4f.

Record SkRect : Type := mkSkRect
  { fLeft : float; fTop : float; fRight : float; fBottom : float }.

(* ================================================================== *)
(** ** GrQuadType *)

Inductive GrQuadType : Type :=
  | kRect
  | kRectilinear
  | kStandard
  | kPerspective.

(** The enumerator values, which give [<], [<=] and [>] on the type. *)
Definition GrQuadType_toZ (t : GrQuadType) : Z :=
  match t with
  | kRect => 0
  | kRectilinear => 1
  | kStandard => 2
  | kPerspective => 3
  end.

Definition kGrQuadTypeCount : Z := GrQuadType_toZ kPerspective + 1.

Definition GrQuadType_eqb (a b : GrQuadType) : bool :=
  GrQuadType_toZ a =? GrQuadType_toZ b.
Definition GrQuadType_leb (a b : GrQuadType) : bool :=
  GrQuadType_toZ a <=? GrQuadType_toZ b.
Definition GrQuadType_ltb (a b : GrQuadType) : bool :=
  GrQuadType_toZ a <? GrQuadType_toZ b.

Definition GrQuadType_max (a b : GrQuadType) : GrQuadType :=
  if GrQuadType_ltb a b then b else a.

(* ================================================================== *)
(** ** GrQuad and GrPerspQuad *)

Module GrQuad.

Record t : Type := mk { fX : float4; fY : float4 }.

(** [explicit GrQuad(const SkRect& rect)] *)
Definition of_rect (rect : SkRect) : t :=
  {| fX := Float4 (fLeft rect) (fLeft rect) (fRight rect) (fRight rect);
     fY := Float4 (fTop rect) (fBottom rect) (fTop rect) (fBottom rect) |}.

Definition x (q : t) (i : Z) : option float := float4_get (fX q) i.
Definition y (q : t) (i : Z) : option float := float4_get (fY q) i.

Definition x4f (q : t) : Sk4f.t := Sk4f.Load (fX q).
Definition y4f (q : t) : Sk4f.t := Sk4f.Load (fY q).

Definition bounds (q : t) : SkRect :=
  let x := x4f q in
  let y := y4f q in
  mkSkRect (Sk4f.min x) (Sk4f.min y) (Sk4f.max x) (Sk4f.max y).

End GrQuad.

Module GrPerspQuad.

Record t : Type := mk { fX : float4; fY : float4; fW : float4 }.

Definition x (q : t) (i : Z) : option float := float4_get (fX q) i.
Definition y (q : t) (i : Z) : option float := float4_get (fY q) i.
Definition w (q : t) (i : Z) : option float := float4_get (fW q) i.
Definition iw (q : t) (i : Z) : option float :=
  option_map F32.recip (float4_get (fW q) i).

Definition x4f (q : t) : Sk4f.t := Sk4f.Load (fX q).
Definition y4f (q : t) : Sk4f.t := Sk4f.Load (fY q).
Definition w4f (q : t) : Sk4f.t := Sk4f.Load (fW q).
Section WithInvert.

(** [Sk4f::invert()], whose code is not in the sources. *)
Variable invert : Sk4f.t -> Sk4f.t.

Definition iw4f (q : t) : Sk4f.t := invert (w4f q).

(** [bounds(type)] in a release build, where [SkASSERT] is empty. *)
Definition bounds (q : t) (type : GrQuadType) : SkRect :=
  let x := x4f q in
  let y := y4f q in
  let '(x, y) :=
    if GrQuadType_eqb type kPerspective
    then let iw := iw4f q in (Sk4f.mul x iw, Sk4f.mul y iw)
    else (x, y) in
  mkSkRect (Sk4f.min x) (Sk4f.min y) (Sk4f.max x) (Sk4f.max y).

End WithInvert.

Definition hasPerspective (q : t) : bool :=
  Sk4f.anyTrue (Sk4f.ne (w4f q) (Sk4f.splat F32.one)).

End GrPerspQuad.


(* ================================================================== *)
(** ** QuadData and GrQuadListBase *)

Module QuadData.

(** [QuadData<T>]; [QuadData<void>] is the instance [T := unit]. *)
Record t (T : Type) : Type := mk { fX : float4; fY : float4; fMetadata : T }.

Arguments mk {T} _ _ _.
Arguments fX {T} _.
Arguments fY {T} _.
Arguments fMetadata {T} _.

End QuadData.

(** [SkTArray::push_back_n(n, value)]: [n] copies of [value]. *)
Definition push_back_n_value {A : Type} (xs : list A) (n : Z) (v : A) : list A :=
  xs ++ repeat v (Z.to_nat n).

(** [SkTArray::push_back_n(n, ptr)]: the [n] items behind [ptr]. *)
Definition push_back_n_array {A : Type} (xs : list A) (n : Z) (src : list A) : list A :=
  xs ++ firstn (Z.to_nat n) src.

(** [SkTArray::reserve] changes the capacity only, never the contents. *)
Definition SkTArray_reserve {A : Type} (xs : list A) (n : Z) : list A := xs.

(** The four floats at [ws + off], when they are all inside the array. *)
Definition read4 (ws : list float) (off : Z) : option float4 :=
  let k := Z.to_nat off in
  match nth_error ws k, nth_error ws (k + 1), nth_error ws (k + 2), nth_error ws (k + 3) with
  | Some a, Some b, Some c, Some d => Some (Float4 a b c d)
  | _, _, _, _ => None
  end.

Definition kNoPerspectiveWs : float4 := Float4 F32.one F32.one F32.one F32.one.

Module GrQuadListBase.

Record t (T : Type) : Type := mk
  { fXYs : list (QuadData.t T);
    fWs : list float;
    fType : GrQuadType }.

Arguments mk {T} _ _ _.
Arguments fXYs {T} _.
Arguments fWs {T} _.
Arguments fType {T} _.

Section WithMetadata.

Context {T : Type}.

(** [GrQuadListBase() : fType(GrQuadType::kRect) {}] *)
Definition empty : t T := {| fXYs := []; fWs := []; fType := kRect |}.

Definition count (l : t T) : Z := Z.of_nat (length (fXYs l)).

Definition quadType (l : t T) : GrQuadType := fType l.

(** [reserve(count, forType)] *)
Definition reserve (l : t T) (cnt : Z) (forType : GrQuadType) : t T :=
  let xys := SkTArray_reserve (fXYs l) cnt in
  if GrQuadType_eqb forType kPerspective || GrQuadType_eqb (fType l) kPerspective
  then {| fXYs := xys; fWs := SkTArray_reserve (fWs l) (4 * cnt); fType := fType l |}
  else {| fXYs := xys; fWs := fWs l; fType := fType l |}.

(** [operator[]]; [None] is a failed [SkASSERT] on the index, or a
    read past the end of [fWs]. *)
Definition operator_index (l : t T) (i : Z) : option GrPerspQuad.t :=
  if (i <? count l) && (0 <=? i) then
    match nth_error (fXYs l) (Z.to_nat i) with
    | Some item =>
        if GrQuadType_eqb (fType l) kPerspective then
          match read4 (fWs l) (4 * i) with
          | Some ws => Some (GrPerspQuad.mk (QuadData.fX item) (QuadData.fY item) ws)
          | None => None
          end
        else
          Some (GrPerspQuad.mk (QuadData.fX item) (QuadData.fY item) kNoPerspectiveWs)
    | None => None
    end
  else None.

(** [upgradeType(type)]: the one place where the storage shape changes. *)
Definition upgradeType (l : t T) (type : GrQuadType) : t T :=
  if GrQuadType_ltb (fType l) type then
    if GrQuadType_eqb type kPerspective then
      {| fXYs := fXYs l;
         fWs := push_back_n_value (fWs l) (4 * count l) F32.one;
         fType := type |}
    else
      {| fXYs := fXYs l; fWs := fWs l; fType := type |}
  else l.

(** [concatImpl(that)], for a [that] other than the receiver itself. *)
Definition concatImpl (l that : t T) : t T :=
  let l1 := upgradeType l (fType that) in
  let xys := push_back_n_array (fXYs l1) (count that) (fXYs that) in
  if GrQuadType_eqb (fType l1) kPerspective then
    if GrQuadType_eqb (fType that) kPerspective then
      {| fXYs := xys;
         fWs := push_back_n_array (fWs l1) (Z.of_nat (length (fWs that))) (fWs that);
         fType := fType l1 |}
    else
      {| fXYs := xys;
         fWs := push_back_n_value (fWs l1) (4 * count that) F32.one;
         fType := fType l1 |}
  else
    {| fXYs := xys; fWs := fWs l1; fType := fType l1 |}.

(** [pushBackImpl(const GrQuad&, GrQuadType)] in a release build.
    The fresh item's metadata is what the caller stores through the
    returned reference ([tt] for [GrQuadList]). *)
Definition pushBackImpl_quad (l : t T) (quad : GrQuad.t) (type : GrQuadType)
    (metadata : T) : t T :=
  let l1 := upgradeType l type in
  let item := QuadData.mk (GrQuad.fX quad) (GrQuad.fY quad) metadata in
  let xys := fXYs l1 ++ [item] in
  if GrQuadType_eqb (fType l1) kPerspective then
    {| fXYs := xys; fWs := push_back_n_value (fWs l1) 4 F32.one; fType := fType l1 |}
  else
    {| fXYs := xys; fWs := fWs l1; fType := fType l1 |}.

(** [pushBackImpl(const GrPerspQuad&, GrQuadType)] in a release build. *)
Definition pushBackImpl_persp (l : t T) (quad : GrPerspQuad.t) (type : GrQuadType)
    (metadata : T) : t T :=
  let l1 := upgradeType l type in
  let item := QuadData.mk (GrPerspQuad.fX quad) (GrPerspQuad.fY quad) metadata in
  let xys := fXYs l1 ++ [item] in
  if GrQuadType_eqb (fType l1) kPerspective then
    {| fXYs := xys;
       fWs := push_back_n_array (fWs l1) 4 (float4_to_list (GrPerspQuad.fW quad));
       fType := fType l1 |}
  else
    {| fXYs := xys; fWs := fWs l1; fType := fType l1 |}.

(** [item(i)], [None] when [i] is outside the array. *)
Definition item (l : t T) (i : Z) : option (QuadData.t T) :=
  if (0 <=? i) && (i <? count l) then nth_error (fXYs l) (Z.to_nat i) else None.

(** [metadata(i)] read through the const accessor. *)
Definition metadata (l : t T) (i : Z) : option T :=
  option_map QuadData.fMetadata (item l i).

Fixpoint set_nth (xs : list (QuadData.t T)) (k : nat) (v : T) : list (QuadData.t T) :=
  match xs, k with
  | [], _ => []
  | d :: rest, O => QuadData.mk (QuadData.fX d) (QuadData.fY d) v :: rest
  | d :: rest, S k' => d :: set_nth rest k' v
  end.

(** [metadata(i) = v] through the mutable accessor. *)
Definition set_metadata (l : t T) (i : Z) (v : T) : option (t T) :=
  if (0 <=? i) && (i <? count l) then
    Some {| fXYs := set_nth (fXYs l) (Z.to_nat i) v; fWs := fWs l; fType := fType l |}
  else None.

(** ** Debug builds

    [quadType()] of a quad exists only under [SK_DEBUG] and its body is
    not in the header, so it is a parameter here. *)
Section Debug.

Variable GrQuad_quadType : GrQuad.t -> GrQuadType.
Variable GrPerspQuad_quadType : GrPerspQuad.t -> GrQuadType.



End Debug.

(** ** The public surface as one step function *)

Inductive AnyQuad : Type :=
  | Quad (q : GrQuad.t)
  | PerspQuad (q : GrPerspQuad.t).

(** [push_back] of [GrQuadList] / [GrTQuadList], either overload. *)
Definition push_back (l : t T) (q : AnyQuad) (type : GrQuadType) (metadata : T) : t T :=
  match q with
  | Quad q => pushBackImpl_quad l q type metadata
  | PerspQuad q => pushBackImpl_persp l q type metadata
  end.

Definition concat (l that : t T) : t T := concatImpl l that.

(** One [push_back] per element, first element first. *)
Definition push_all (l : t T) (qs : list (AnyQuad * GrQuadType * T)) : t T :=
  fold_left (fun acc e => push_back acc (fst (fst e)) (snd (fst e)) (snd e)) qs l.

Inductive Op : Type :=
  | OpCount
  | OpQuadType
  | OpReserve (cnt : Z) (forType : GrQuadType)
  | OpIndex (i : Z)
  | OpPushBack (q : AnyQuad) (type : GrQuadType) (metadata : T)
  | OpConcat (that : t T)
  | OpMetadataRead (i : Z)
  | OpMetadataWrite (i : Z) (v : T).

(** The index an operation dereferences, if it has one. *)
Definition op_index (op : Op) : option Z :=
  match op with
  | OpIndex i | OpMetadataRead i | OpMetadataWrite i _ => Some i
  | _ => None
  end.

(** The list after the operation; [None] when an index is out of range. *)
Definition step (l : t T) (op : Op) : option (t T) :=
  match op with
  | OpCount | OpQuadType => Some l
  | OpReserve cnt forType => Some (reserve l cnt forType)
  | OpIndex i => if (i <? count l) && (0 <=? i) then Some l else None
  | OpPushBack q type md => Some (push_back l q type md)
  | OpConcat that => Some (concat l that)
  | OpMetadataRead i => match metadata l i with Some _ => Some l | None => None end
  | OpMetadataWrite i v => set_metadata l i v
  end.

(** Lists a client can build: the constructor followed by any of the
    mutating members. *)
Inductive reachable : t T -> Prop :=
  | reach_empty : reachable empty
  | reach_reserve l cnt forType :
      reachable l -> reachable (reserve l cnt forType)
  | reach_push_back l q type md :
      reachable l -> reachable (push_back l q type md)
  | reach_concat l that :
      reachable l -> reachable that -> reachable (concat l that)
  | reach_set_metadata l i v l' :
      reachable l -> set_metadata l i v = Some l' -> reachable l'.

(** The storage-shape invariant of the w channel. *)
Definition ws_shape (l : t T) : bool :=
  if GrQuadType_eqb (fType l) kPerspective
  then (length (fWs l) =? 4 * length (fXYs l))%nat
  else (length (fWs l) =? 0)%nat.

(** The w channel with the implicit ones written out: what [fWs]
    would hold had the list been [kPerspective] from the start. *)
Definition explicit_ws (l : t T) : list float :=
  if GrQuadType_eqb (fType l) kPerspective
  then fWs l
  else repeat F32.one (4 * length (fXYs l)).

(** What a push adds to the written-out w channel: the quad's own
    weights when a [GrPerspQuad] lands in a [kPerspective] list, ones
    in every other case. *)
Definition pushed_ws (l : t T) (q : AnyQuad) (type : GrQuadType) : list float :=
  match q with
  | Quad _ => repeat F32.one 4
  | PerspQuad q =>
      if GrQuadType_eqb (GrQuadType_max (fType l) type) kPerspective
      then float4_to_list (GrPerspQuad.fW q)
      else repeat F32.one 4
  end.

(** The type argument of one recorded [push_back] is at most [bound]. *)
Definition declared_at_most (bound : GrQuadType) (e : AnyQuad * GrQuadType * T) : Prop :=
  GrQuadType_leb (snd (fst e)) bound = true.

End WithMetadata.

End GrQuadListBase.

(** [GrQuadList] stores no metadata. *)
Definition GrQuadList : Type := GrQuadListBase.t unit.
Definition GrTQuadList (T : Type) : Type := GrQuadListBase.t T.

(** ** Sample values *)

Module Sample.

Definition four : float := S754_finite false 8388608 (-21).

(** The rectangle [(0, 0, 4, 2)] as left, top, right, bottom. *)
Definition rect : SkRect := mkSkRect F32.zero F32.zero four F32.two.

Definition quad : GrQuad.t := GrQuad.of_rect rect.

(** The same corners with every weight [2.f]. *)
Definition persp : GrPerspQuad.t :=
  GrPerspQuad.mk (GrQuad.fX quad) (GrQuad.fY quad)
    (Float4 F32.two F32.two F32.two F32.two).

(** One affine entry. *)
Definition affine_list : GrQuadList :=
  GrQuadListBase.push_back GrQuadListBase.empty (GrQuadListBase.Quad quad) kRect tt.

(** One perspective entry. *)
Definition persp_list : GrQuadList :=
  GrQuadListBase.push_back GrQuadListBase.empty
    (GrQuadListBase.PerspQuad persp) kPerspective tt.

End Sample.

(* ================================================================== *)
(** ** Quad classification *)

(** The header declares [GrQuadTypeForTransformedRect] without a body,
    and [SkMatrix] with its point mapping and predicates is not in the
    sources.  The classifier and the transform it consults follow the
    spec, over exact rational coordinates. *)
Module Classify.

Local Open Scope Q_scope.

(** Modelled from the spec: the axis-aligned rectangle type, exposing its
    four edge coordinates. *)
Record Rect : Type := mkRect { left : Q; top : Q; right : Q; bottom : Q }.

(** Modelled from the spec: the 2D affine or perspective transform, a 3x3
    matrix in row-major order whose third row is the perspective row. *)
Record Matrix : Type := mkMatrix
  { scaleX : Q; skewX : Q; transX : Q;
    skewY : Q; scaleY : Q; transY : Q;
    persp0 : Q; persp1 : Q; persp2 : Q }.

Definition identity : Matrix := mkMatrix 1 0 0  0 1 0  0 0 1.

(** A quarter turn about the origin: [(x, y)] goes to [(-y, x)]. *)
Definition rotate90 : Matrix := mkMatrix 0 (-1) 0  1 0 0  0 0 1.

(** Modelled from the spec: the transform's point mapping, for a point
    that needs no homogeneous divide. *)
Definition mapX (m : Matrix) (x y : Q) : Q := scaleX m * x + skewX m * y + transX m.
Definition mapY (m : Matrix) (x y : Q) : Q := skewY m * x + scaleY m * y + transY m.

(** Modelled from the spec: the transform's has-perspective predicate, a
    third row other than [(0, 0, 1)]. *)
Definition hasPerspective (m : Matrix) : bool :=
  negb (Qeq_bool (persp0 m) 0 && Qeq_bool (persp1 m) 0 && Qeq_bool (persp2 m) 1).

(** Modelled from the spec: the transform's has-skew predicate.  Diagonal
    matrices and rotations have no skew: the images of the two axes stay
    perpendicular. *)
Definition hasSkew (m : Matrix) : bool :=
  negb (Qeq_bool (scaleX m * skewX m + skewY m * scaleY m) 0).

(** Modelled from the spec: the transform's maps-rectangles-to-rectangles
    predicate.  The corners are mapped in the quad's order (0 top-left,
    1 bottom-left, 2 top-right, 3 bottom-right) and must satisfy
    [x0==x1, x2==x3, y0==y2, y1==y3] or the other pairing of the header
    comment of [GrQuadType], [x0==x2, x1==x3, y0==y1, y2==y3]; a transform
    with perspective never qualifies. *)
Definition mapsRectToRect (m : Matrix) (r : Rect) : bool :=
  let x0 := mapX m (left r) (top r) in
  let y0 := mapY m (left r) (top r) in
  let x1 := mapX m (left r) (bottom r) in
  let y1 := mapY m (left r) (bottom r) in
  let x2 := mapX m (right r) (top r) in
  let y2 := mapY m (right r) (top r) in
  let x3 := mapX m (right r) (bottom r) in
  let y3 := mapY m (right r) (bottom r) in
  negb (hasPerspective m) &&
  ((Qeq_bool x0 x1 && Qeq_bool x2 x3 && Qeq_bool y0 y2 && Qeq_bool y1 y3) ||
   (Qeq_bool x0 x2 && Qeq_bool x1 x3 && Qeq_bool y0 y1 && Qeq_bool y2 y3)).

(** Modelled from the spec: the body of [GrQuadTypeForTransformedRect],
    which the header only declares.  Four cases in order, the first match
    winning. *)
Definition GrQuadTypeForTransformedRect (r : Rect) (m : Matrix) : GrQuadType :=
  if mapsRectToRect m r then kRect
  else if negb (hasPerspective m) && negb (hasSkew m) then kRectilinear
  else if negb (hasPerspective m) then kStandard
  else kPerspective.

End Classify.

(* ================================================================== *)
(** ** Anti-aliasing resolution *)

Module GrAAType.
(** Modelled from the spec: the enumerators of [GrAAType], which the
    header only forward-declares.  The spec names the modes none and
    coverage; the multisampled modes are treated like coverage. *)
Inductive t : Type := kNone | kCoverage | kMSAA | kMixedSamples.
End GrAAType.

Module GrQuadAAFlags.
(** Modelled from the spec: [GrQuadAAFlags], which the header only
    forward-declares, as one boolean per edge. *)
Record t : Type := mk { kLeft : bool; kTop : bool; kRight : bool; kBottom : bool }.
Definition kNone : t := mk false false false false.
Definition kAll : t := mk true true true true.
End GrQuadAAFlags.

Section ResolveAA.

(** The quad class [Q] of the template and its [aaHasEffectOnRect()],
    declared in the header without a body. *)
Context {Q : Type}.
Variable aaHasEffectOnRect : Q -> bool.

(** Modelled from the spec: the body of [GrResolveAATypeForQuad], which
    the header only declares.  The policy rules are: a requested type of
    none forces the edge flags to none regardless of quad type; a [kRect]
    quad on which AA has no effect is downgraded to type none with its
    edge flags cleared; every other request is passed through unchanged.
    The two out-parameters are returned as a pair. *)
Definition GrResolveAATypeForQuad
    (requestedAAType : GrAAType.t) (requestedEdgeFlags : GrQuadAAFlags.t)
    (quad : Q) (knownQuadType : GrQuadType) : GrAAType.t * GrQuadAAFlags.t :=
  match requestedAAType with
  | GrAAType.kNone => (GrAAType.kNone, GrQuadAAFlags.kNone)
  | _ =>
      if GrQuadType_eqb knownQuadType kRect && negb (aaHasEffectOnRect quad)
      then (GrAAType.kNone, GrQuadAAFlags.kNone)
      else (requestedAAType, requestedEdgeFlags)
  end.

End ResolveAA.

(* ================================================================== *)
(** ** sksg::GeometryTransform *)

Module sksg.

Section Nodes.

(** The pointees of [sk_sp<GeometryNode>] and [sk_sp<Transform>],
    [SkPath] with its default-constructed value, and [SkMatrix]. *)
Variables GeometryNode Transform SkPath SkMatrix : Type.
Variable SkPath_default : SkPath.

Definition sk_sp (A : Type) : Type := option A.

Record GeometryTransform : Type := mkGeometryTransform
  { fChild : sk_sp GeometryNode;
    fTransform : sk_sp Transform;
    fTransformedPath : SkPath }.

(** The private constructor: its body is not in the header; it
    initialises the two [const] members from its arguments. *)
Definition new_GeometryTransform (child : sk_sp GeometryNode)
    (transform : sk_sp Transform) : GeometryTransform :=
  {| fChild := child; fTransform := transform; fTransformedPath := SkPath_default |}.

Definition isNonNull {A : Type} (p : sk_sp A) : bool :=
  match p with Some _ => true | None => false end.

Definition Make (child : sk_sp GeometryNode) (transform : sk_sp Transform)
    : sk_sp GeometryTransform :=
  if isNonNull child && isNonNull transform
  then Some (new_GeometryTransform child transform)
  else None.

(** [Make(child, const SkMatrix&)], over [Matrix::Make], which is not in
    the sources. *)
Definition Make_matrix (Matrix_Make : SkMatrix -> sk_sp Transform)
    (child : sk_sp GeometryNode) (m : SkMatrix) : sk_sp GeometryTransform :=
  Make child (Matrix_Make m).

Definition getTransform (n : GeometryTransform) : sk_sp Transform := fTransform n.

End Nodes.

Arguments fChild {_ _ _} _.
Arguments fTransform {_ _ _} _.
Arguments getTransform {_ _ _} _.

End sksg.

(* ================================================================== *)
(** ** Views of a list used to state its behaviour *)

Section ListViews.

Context {T : Type}.

(** The x and y lanes a [push_back] copies out of its quad. *)
Definition AnyQuad_fX (q : GrQuadListBase.AnyQuad) : float4 :=
  match q with
  | GrQuadListBase.Quad q => GrQuad.fX q
  | GrQuadListBase.PerspQuad q => GrPerspQuad.fX q
  end.

Definition AnyQuad_fY (q : GrQuadListBase.AnyQuad) : float4 :=
  match q with
  | GrQuadListBase.Quad q => GrQuad.fY q
  | GrQuadListBase.PerspQuad q => GrPerspQuad.fY q
  end.

(** The weights kept for a quad pushed with [type] into [l]: those of a
    [GrPerspQuad] when the list is [kPerspective] once upgraded, ones
    otherwise. *)
Definition stored_fW (l : GrQuadListBase.t T) (q : GrQuadListBase.AnyQuad)
    (type : GrQuadType) : float4 :=
  match q with
  | GrQuadListBase.Quad _ => kNoPerspectiveWs
  | GrQuadListBase.PerspQuad pq =>
      if GrQuadType_eqb (GrQuadType_max (GrQuadListBase.fType l) type) kPerspective
      then GrPerspQuad.fW pq
      else kNoPerspectiveWs
  end.

(** The largest type argument in a run of pushes, starting from [t0]. *)
Definition max_declared (t0 : GrQuadType)
    (qs : list (GrQuadListBase.AnyQuad * GrQuadType * T)) : GrQuadType :=
  fold_left (fun acc e => GrQuadType_max acc (snd (fst e))) qs t0.

(** One push per stored entry: the entry's lanes with four weights taken
    from [ws], the type [ty], and the entry's metadata. *)
Fixpoint entries_of (xys : list (QuadData.t T)) (ws : list float) (ty : GrQuadType)
    : list (GrQuadListBase.AnyQuad * GrQuadType * T) :=
  match xys, ws with
  | d :: rest, a :: b :: c :: e :: ws' =>
      (GrQuadListBase.PerspQuad
         (GrPerspQuad.mk (QuadData.fX d) (QuadData.fY d) (Float4 a b c e)),
       ty, QuadData.fMetadata d) :: entries_of rest ws' ty
  | _, _ => []
  end.

(** The entries of [l] as [operator[]] and [metadata] show them, each
    tagged with the list's tracked type. *)
Definition entries (l : GrQuadListBase.t T)
    : list (GrQuadListBase.AnyQuad * GrQuadType * T) :=
  entries_of (GrQuadListBase.fXYs l) (GrQuadListBase.explicit_ws l)
    (GrQuadListBase.fType l).

End ListViews.

(* ================================================================== *)
(** ** The order of binary32 values *)

(** [a <= b] on floats. *)
Definition F32_leb : float -> float -> bool := SFleb.

Definition is_nan (x : float) : bool :=
  match x with S754_nan => true | _ => false end.

Definition float4_no_nan (a : float4) : bool :=
  negb (is_nan (at0 a)) && negb (is_nan (at1 a)) &&
  negb (is_nan (at2 a)) && negb (is_nan (at3 a)).

(** Where a value other than NaN stands in the order [<] compares by:
    negative infinity, the negative values, the zeros, the positive
    values, positive infinity; inside a sign by exponent, then mantissa. *)
Definition order_key (x : float) : Z * Z * Z :=
  match x with
  | S754_infinity true => (-2, 0, 0)
  | S754_finite true m e => (-1, - e, - Zpos m)
  | S754_zero _ => (0, 0, 0)
  | S754_nan => (0, 0, 0)
  | S754_finite false m e => (1, e, Zpos m)
  | S754_infinity false => (2, 0, 0)
  end.

Definition key_lt (a b : Z * Z * Z) : Prop :=
  fst (fst a) < fst (fst b) \/
  (fst (fst a) = fst (fst b) /\
   (snd (fst a) < snd (fst b) \/ (snd (fst a) = snd (fst b) /\ snd a < snd b))).

Definition key_le (a b : Z * Z * Z) : Prop :=
  fst (fst a) < fst (fst b) \/
  (fst (fst a) = fst (fst b) /\
   (snd (fst a) < snd (fst b) \/ (snd (fst a) = snd (fst b) /\ snd a <= snd b))).


(* ================================================================== *)
(** ** quadType() of a quad *)

(** [GrQuad::quadType()] and [GrPerspQuad::quadType()] are declared under
    [SK_DEBUG]; their bodies are not in the sources. *)
Section QuadTypeOfQuad.

(** The test that tells [kRectilinear] from [kStandard] on four points. *)
Variable isRectilinear : float4 -> float4 -> bool.





End QuadTypeOfQuad.

(* ================================================================== *)
(** * Properties *)

(** ** The type order *)

Lemma GrQuadType_eqb_eq (a b : GrQuadType) : GrQuadType_eqb a b = true <-> a = b.
Proof.
  unfold GrQuadType_eqb; split.
  - destruct a, b; simpl; intros H; try reflexivity; discriminate H.
  - intros ->. apply Z.eqb_refl.
Qed.

Lemma GrQuadType_eqb_neq (a b : GrQuadType) : GrQuadType_eqb a b = false <-> a <> b.
Proof.
  rewrite <- GrQuadType_eqb_eq. destruct (GrQuadType_eqb a b); split; congruence.
Qed.

Lemma GrQuadType_leb_refl (a : GrQuadType) : GrQuadType_leb a a = true.
Proof. apply Z.leb_refl. Qed.

Lemma GrQuadType_leb_max_l (a b : GrQuadType) : GrQuadType_leb a (GrQuadType_max a b) = true.
Proof. destruct a, b; reflexivity. Qed.

Lemma GrQuadType_max_perspective_r (a : GrQuadType) : GrQuadType_max a kPerspective = kPerspective.
Proof. destruct a; reflexivity. Qed.

Lemma GrQuadType_below_perspective (a : GrQuadType) :
  GrQuadType_ltb a kPerspective = true <-> a <> kPerspective.
Proof. destruct a; cbv; split; intros; congruence. Qed.

(** ** Reading four weights *)

Lemma read4_app_l (xs ys : list float) (off : Z) :
  (Z.to_nat off + 3 < length xs)%nat ->
  read4 (xs ++ ys) off = read4 xs off.
Proof.
  intros H. unfold read4.
  rewrite !nth_error_app1 by lia. reflexivity.
Qed.

Lemma read4_app_r (xs ys : list float) (off off' : Z) :
  Z.to_nat off = (length xs + Z.to_nat off')%nat ->
  read4 (xs ++ ys) off = read4 ys off'.
Proof.
  intros H. unfold read4. rewrite H.
  rewrite !nth_error_app2 by lia.
  replace (length xs + Z.to_nat off' - length xs)%nat with (Z.to_nat off') by lia.
  replace (length xs + Z.to_nat off' + 1 - length xs)%nat with (Z.to_nat off' + 1)%nat by lia.
  replace (length xs + Z.to_nat off' + 2 - length xs)%nat with (Z.to_nat off' + 2)%nat by lia.
  replace (length xs + Z.to_nat off' + 3 - length xs)%nat with (Z.to_nat off' + 3)%nat by lia.
  reflexivity.
Qed.

Lemma nth_error_repeat_lt {A : Type} (v : A) (n k : nat) :
  (k < n)%nat -> nth_error (repeat v n) k = Some v.
Proof.
  revert k. induction n as [|n IH]; intros k Hk; [lia|].
  destruct k as [|k]; simpl; [reflexivity|]. apply IH. lia.
Qed.

Lemma read4_repeat_one (n : nat) (off : Z) :
  (Z.to_nat off + 3 < n)%nat ->
  read4 (repeat F32.one n) off = Some kNoPerspectiveWs.
Proof.
  intros H. unfold read4.
  rewrite !nth_error_repeat_lt by lia. reflexivity.
Qed.

Lemma read4_float4_to_list (ws : float4) : read4 (float4_to_list ws) 0 = Some ws.
Proof. destruct ws; reflexivity. Qed.

Section ListFacts.

Context {T : Type}.
Import GrQuadListBase.

Implicit Types l that : GrQuadListBase.t T.

(** ** upgradeType *)

Lemma upgradeType_fType l type :
  fType (upgradeType l type) = GrQuadType_max (fType l) type.
Proof.
  unfold upgradeType, GrQuadType_max.
  destruct (GrQuadType_ltb (fType l) type); [|reflexivity].
  destruct (GrQuadType_eqb type kPerspective); reflexivity.
Qed.

Lemma upgradeType_fXYs l type : fXYs (upgradeType l type) = fXYs l.
Proof.
  unfold upgradeType.
  destruct (GrQuadType_ltb (fType l) type); [|reflexivity].
  destruct (GrQuadType_eqb type kPerspective); reflexivity.
Qed.

Lemma upgradeType_count l type : count (upgradeType l type) = count l.
Proof. unfold count. rewrite upgradeType_fXYs. reflexivity. Qed.

(** The w channel after an upgrade, for a list in good shape: untouched
    unless the type first reaches [kPerspective], and then one [1.f] per
    lane of every stored entry. *)
Lemma upgradeType_fWs l type :
  ws_shape l = true ->
  fWs (upgradeType l type) =
    if GrQuadType_eqb (fType l) kPerspective then fWs l
    else if GrQuadType_eqb type kPerspective
         then repeat F32.one (4 * length (fXYs l))
         else [].
Proof.
  unfold ws_shape, upgradeType. intros H.
  destruct (GrQuadType_eqb (fType l) kPerspective) eqn:Ep.
  - apply GrQuadType_eqb_eq in Ep. rewrite Ep.
    destruct type; reflexivity.
  - apply Nat.eqb_eq in H. apply length_zero_iff_nil in H.
    destruct (GrQuadType_ltb (fType l) type) eqn:El.
    + destruct (GrQuadType_eqb type kPerspective) eqn:Et; cbn [fWs]; [|exact H].
      rewrite H. unfold push_back_n_value, count. rewrite app_nil_l. f_equal. lia.
    + destruct (GrQuadType_eqb type kPerspective) eqn:Et; [|exact H].
      apply GrQuadType_eqb_eq in Et. subst type.
      revert Ep El. destruct (fType l); cbv; congruence.
Qed.

Lemma upgradeType_ws_shape l type :
  ws_shape l = true -> ws_shape (upgradeType l type) = true.
Proof.
  intros H. unfold ws_shape.
  rewrite upgradeType_fWs by exact H.
  rewrite upgradeType_fType, upgradeType_fXYs.
  unfold ws_shape in H.
  destruct (GrQuadType_eqb (fType l) kPerspective) eqn:Ep.
  - apply GrQuadType_eqb_eq in Ep. rewrite Ep. destruct type; exact H.
  - destruct (GrQuadType_eqb type kPerspective) eqn:Et.
    + apply GrQuadType_eqb_eq in Et. subst type.
      rewrite GrQuadType_max_perspective_r. simpl.
      rewrite repeat_length. apply Nat.eqb_refl.
    + replace (GrQuadType_eqb (GrQuadType_max (fType l) type) kPerspective) with false.
      * reflexivity.
      * symmetry. apply GrQuadType_eqb_neq.
        apply GrQuadType_eqb_neq in Ep, Et. revert Ep Et.
        destruct (fType l), type; cbv; congruence.
Qed.

(** ** The w channel with its implicit ones written out *)

Lemma explicit_ws_length l :
  ws_shape l = true -> length (explicit_ws l) = (4 * length (fXYs l))%nat.
Proof.
  unfold ws_shape, explicit_ws.
  destruct (GrQuadType_eqb (fType l) kPerspective); intros H.
  - apply Nat.eqb_eq in H. exact H.
  - apply repeat_length.
Qed.

Lemma upgradeType_explicit_ws l type :
  ws_shape l = true -> explicit_ws (upgradeType l type) = explicit_ws l.
Proof.
  intros H. unfold explicit_ws.
  rewrite upgradeType_fWs by exact H.
  rewrite upgradeType_fType, upgradeType_fXYs.
  destruct (GrQuadType_eqb (fType l) kPerspective) eqn:Ep.
  - apply GrQuadType_eqb_eq in Ep. rewrite Ep. destruct type; reflexivity.
  - destruct (GrQuadType_eqb type kPerspective) eqn:Et.
    + apply GrQuadType_eqb_eq in Et. subst type.
      rewrite GrQuadType_max_perspective_r. reflexivity.
    + replace (GrQuadType_eqb (GrQuadType_max (fType l) type) kPerspective) with false;
        [reflexivity|].
      symmetry. apply GrQuadType_eqb_neq.
      apply GrQuadType_eqb_neq in Ep, Et. revert Ep Et.
      destruct (fType l), type; cbv; congruence.
Qed.

Lemma read4_in_range (ws : list float) (off : Z) :
  (Z.to_nat off + 3 < length ws)%nat -> exists w4, read4 ws off = Some w4.
Proof.
  intros H. unfold read4.
  destruct (nth_error ws (Z.to_nat off)) as [a|] eqn:E0;
    [|apply nth_error_None in E0; lia].
  destruct (nth_error ws (Z.to_nat off + 1)) as [b|] eqn:E1;
    [|apply nth_error_None in E1; lia].
  destruct (nth_error ws (Z.to_nat off + 2)) as [c|] eqn:E2;
    [|apply nth_error_None in E2; lia].
  destruct (nth_error ws (Z.to_nat off + 3)) as [d|] eqn:E3;
    [|apply nth_error_None in E3; lia].
  eexists; reflexivity.
Qed.

(** [operator[]] reads the written-out w channel. *)
Lemma operator_index_explicit l i :
  ws_shape l = true ->
  operator_index l i =
    if (i <? count l) && (0 <=? i) then
      match nth_error (fXYs l) (Z.to_nat i), read4 (explicit_ws l) (4 * i) with
      | Some item, Some ws =>
          Some (GrPerspQuad.mk (QuadData.fX item) (QuadData.fY item) ws)
      | _, _ => None
      end
    else None.
Proof.
  intros H. unfold operator_index, explicit_ws.
  destruct ((i <? count l) && (0 <=? i)) eqn:Hr; [|reflexivity].
  apply andb_true_iff in Hr. destruct Hr as [Hlt Hge].
  apply Z.ltb_lt in Hlt. apply Z.leb_le in Hge. unfold count in Hlt.
  destruct (nth_error (fXYs l) (Z.to_nat i)) as [item|]; [|reflexivity].
  destruct (GrQuadType_eqb (fType l) kPerspective).
  - destruct (read4 (fWs l) (4 * i)); reflexivity.
  - rewrite read4_repeat_one by lia. reflexivity.
Qed.

(** An index in range always reads a quad. *)
Lemma operator_index_in_range l i :
  ws_shape l = true -> 0 <= i < count l ->
  exists q, operator_index l i = Some q.
Proof.
  intros H Hi. rewrite operator_index_explicit by exact H.
  unfold count in Hi.
  replace ((i <? count l) && (0 <=? i)) with true
    by (symmetry; apply andb_true_iff; split;
        [apply Z.ltb_lt; unfold count; lia | apply Z.leb_le; lia]).
  destruct (nth_error (fXYs l) (Z.to_nat i)) as [item|] eqn:En;
    [|apply nth_error_None in En; lia].
  destruct (read4_in_range (explicit_ws l) (4 * i)) as [w4 Hw].
  - rewrite explicit_ws_length by exact H. lia.
  - rewrite Hw. eexists; reflexivity.
Qed.

(** ** concat *)

Lemma concatImpl_fType l that :
  fType (concatImpl l that) = GrQuadType_max (fType l) (fType that).
Proof.
  unfold concatImpl.
  destruct (GrQuadType_eqb (fType (upgradeType l (fType that))) kPerspective);
    [destruct (GrQuadType_eqb (fType that) kPerspective)|];
    cbn [fType]; apply upgradeType_fType.
Qed.

Lemma concatImpl_fXYs l that :
  fXYs (concatImpl l that) = fXYs l ++ fXYs that.
Proof.
  unfold concatImpl, push_back_n_array, count.
  rewrite Nat2Z.id, firstn_all.
  destruct (GrQuadType_eqb (fType (upgradeType l (fType that))) kPerspective);
    [destruct (GrQuadType_eqb (fType that) kPerspective)|];
    cbn [fXYs]; rewrite upgradeType_fXYs; reflexivity.
Qed.

Lemma concatImpl_explicit_ws l that :
  ws_shape l = true -> ws_shape that = true ->
  explicit_ws (concatImpl l that) = explicit_ws l ++ explicit_ws that.
Proof.
  intros Hl Ht.
  pose proof (upgradeType_explicit_ws l (fType that) Hl) as Hu.
  pose proof (upgradeType_fType l (fType that)) as Hty.
  unfold explicit_ws at 1. rewrite concatImpl_fType, concatImpl_fXYs.
  unfold concatImpl, push_back_n_array, push_back_n_value, count.
  rewrite Hty.
  destruct (GrQuadType_eqb (GrQuadType_max (fType l) (fType that)) kPerspective) eqn:Em.
  - unfold explicit_ws in Hu at 1. rewrite Hty, Em in Hu.
    destruct (GrQuadType_eqb (fType that) kPerspective) eqn:Et; cbn [fWs].
    + rewrite Nat2Z.id, firstn_all, Hu. f_equal.
      unfold explicit_ws. rewrite Et. reflexivity.
    + rewrite Hu. f_equal.
      unfold explicit_ws. rewrite Et. f_equal. lia.
  - apply GrQuadType_eqb_neq in Em.
    unfold explicit_ws.
    replace (GrQuadType_eqb (fType l) kPerspective) with false
      by (symmetry; apply GrQuadType_eqb_neq; revert Em;
          destruct (fType l), (fType that); cbv; congruence).
    replace (GrQuadType_eqb (fType that) kPerspective) with false
      by (symmetry; apply GrQuadType_eqb_neq; revert Em;
          destruct (fType l), (fType that); cbv; congruence).
    rewrite <- repeat_app, length_app. f_equal. lia.
Qed.

Lemma concatImpl_ws_shape l that :
  ws_shape l = true -> ws_shape that = true -> ws_shape (concatImpl l that) = true.
Proof.
  intros Hl Ht.
  pose proof (upgradeType_ws_shape l (fType that) Hl) as Hu.
  pose proof (upgradeType_fXYs l (fType that)) as Hx.
  unfold ws_shape in Hu, Ht |- *.
  unfold concatImpl, push_back_n_array, push_back_n_value, count.
  destruct (GrQuadType_eqb (fType (upgradeType l (fType that))) kPerspective) eqn:Em.
  - apply Nat.eqb_eq in Hu.
    destruct (GrQuadType_eqb (fType that) kPerspective) eqn:Et;
      cbn [fType fWs fXYs]; rewrite Em; apply Nat.eqb_eq.
    + apply Nat.eqb_eq in Ht.
      rewrite Nat2Z.id, Nat2Z.id, !firstn_all, !length_app, Hu, Ht. lia.
    + rewrite Nat2Z.id, firstn_all, !length_app, repeat_length, Hu. lia.
  - cbn [fType fWs fXYs]. rewrite Em. exact Hu.
Qed.

(** ** push_back *)

Lemma push_back_fType l q type md :
  fType (push_back l q type md) = GrQuadType_max (fType l) type.
Proof.
  destruct q as [q|q]; cbn [push_back];
    unfold pushBackImpl_quad, pushBackImpl_persp;
    destruct (GrQuadType_eqb (fType (upgradeType l type)) kPerspective);
    cbn [fType]; apply upgradeType_fType.
Qed.

Lemma push_back_length l q type md :
  length (fXYs (push_back l q type md)) = S (length (fXYs l)).
Proof.
  destruct q as [q|q]; cbn [push_back];
    unfold pushBackImpl_quad, pushBackImpl_persp;
    destruct (GrQuadType_eqb (fType (upgradeType l type)) kPerspective);
    cbn [fXYs]; rewrite length_app, upgradeType_fXYs; simpl; lia.
Qed.

Lemma push_back_explicit_ws l q type md :
  ws_shape l = true ->
  explicit_ws (push_back l q type md) = explicit_ws l ++ pushed_ws l q type.
Proof.
  intros Hl.
  pose proof (upgradeType_explicit_ws l type Hl) as Hu.
  pose proof (upgradeType_fType l type) as Hty.
  pose proof (upgradeType_fXYs l type) as Hx.
  unfold explicit_ws in Hu at 1. rewrite Hty, Hx in Hu.
  assert (Hones : forall d : QuadData.t T,
             repeat F32.one (4 * length (fXYs l ++ [d])) =
             repeat F32.one (4 * length (fXYs l)) ++ repeat F32.one 4).
  { intros d. rewrite <- repeat_app, length_app. f_equal. simpl. lia. }
  destruct q as [q|q]; cbn [push_back pushed_ws];
    unfold pushBackImpl_quad, pushBackImpl_persp, explicit_ws at 1;
    rewrite Hty, Hx;
    destruct (GrQuadType_eqb (GrQuadType_max (fType l) type) kPerspective) eqn:Em;
    cbn [fType fWs fXYs]; rewrite Em;
    unfold push_back_n_value, push_back_n_array;
    try (rewrite Hu; reflexivity);
    rewrite Hones, Hu; reflexivity.
Qed.

Lemma push_back_ws_shape l q type md :
  ws_shape l = true -> ws_shape (push_back l q type md) = true.
Proof.
  intros Hl.
  pose proof (upgradeType_ws_shape l type Hl) as Hu.
  unfold ws_shape in Hu |- *.
  destruct q as [q|q]; cbn [push_back];
    unfold pushBackImpl_quad, pushBackImpl_persp, push_back_n_value, push_back_n_array;
    destruct (GrQuadType_eqb (fType (upgradeType l type)) kPerspective) eqn:Em;
    cbn [fType fWs fXYs]; rewrite Em; try exact Hu;
    apply Nat.eqb_eq in Hu; apply Nat.eqb_eq;
    rewrite !length_app, Hu; simpl; lia.
Qed.

(** ** reserve and metadata writes *)

Lemma reserve_same l cnt forType : reserve l cnt forType = l.
Proof.
  unfold reserve, SkTArray_reserve. destruct l as [xys ws ty]; cbn [fXYs fWs fType].
  destruct (GrQuadType_eqb forType kPerspective || GrQuadType_eqb ty kPerspective);
    reflexivity.
Qed.

Lemma set_nth_length (xs : list (QuadData.t T)) k v : length (set_nth xs k v) = length xs.
Proof.
  revert k. induction xs as [|d xs IH]; intros [|k]; simpl; try reflexivity.
  rewrite IH. reflexivity.
Qed.

Lemma set_metadata_fType l i v l' : set_metadata l i v = Some l' -> fType l' = fType l.
Proof.
  unfold set_metadata. destruct ((0 <=? i) && (i <? count l)); intros H; inversion H.
  reflexivity.
Qed.

Lemma set_metadata_ws_shape l i v l' :
  set_metadata l i v = Some l' -> ws_shape l = true -> ws_shape l' = true.
Proof.
  unfold set_metadata. destruct ((0 <=? i) && (i <? count l)); intros H; inversion H.
  unfold ws_shape; cbn [fType fWs fXYs]. rewrite set_nth_length. trivial.
Qed.

(** ** Every list a client can build has its w channel in shape *)

Lemma reachable_ws_shape l : reachable l -> ws_shape l = true.
Proof.
  induction 1 as [ | l cnt forType _ IH | l q type md _ IH
                   | l that _ IHl _ IHt | l i v l' _ IH Hset ].
  - reflexivity.
  - rewrite reserve_same. exact IH.
  - apply push_back_ws_shape, IH.
  - apply concatImpl_ws_shape; assumption.
  - eapply set_metadata_ws_shape; eassumption.
Qed.

End ListFacts.

Section ListClaims.

Context {T : Type}.
Import GrQuadListBase.

Implicit Types l that A B : GrQuadListBase.t T.

Lemma in_range_true l i : 0 <= i < count l -> (i <? count l) && (0 <=? i) = true.
Proof.
  intros Hi. apply andb_true_iff. split; [apply Z.ltb_lt | apply Z.leb_le]; lia.
Qed.

Lemma concat_count A B : count (concat A B) = count A + count B.
Proof.
  unfold concat, count. rewrite concatImpl_fXYs, length_app. lia.
Qed.

(** Reading the appended half of a concatenation reads the argument. *)
Lemma operator_index_concat_r A B i :
  ws_shape A = true -> ws_shape B = true -> 0 <= i < count B ->
  operator_index (concat A B) (count A + i) = operator_index B i.
Proof.
  intros HA HB Hi.
  rewrite (operator_index_explicit (concat A B))
    by (apply concatImpl_ws_shape; assumption).
  rewrite (operator_index_explicit B) by exact HB.
  rewrite !in_range_true by (rewrite ?concat_count; unfold count in *; lia).
  unfold concat. rewrite concatImpl_fXYs, concatImpl_explicit_ws by assumption.
  unfold count in *.
  rewrite nth_error_app2 by lia.
  replace (Z.to_nat (Z.of_nat (length (fXYs A)) + i) - length (fXYs A))%nat
    with (Z.to_nat i) by lia.
  rewrite (read4_app_r _ _ _ (4 * i))
    by (rewrite explicit_ws_length by exact HA; lia).
  reflexivity.
Qed.

(** Reading the original half of a concatenation reads the receiver. *)
Lemma operator_index_concat_l A B i :
  ws_shape A = true -> ws_shape B = true -> 0 <= i < count A ->
  operator_index (concat A B) i = operator_index A i.
Proof.
  intros HA HB Hi.
  rewrite (operator_index_explicit (concat A B))
    by (apply concatImpl_ws_shape; assumption).
  rewrite (operator_index_explicit A) by exact HA.
  rewrite !in_range_true by (rewrite ?concat_count; unfold count in *; lia).
  unfold concat. rewrite concatImpl_fXYs, concatImpl_explicit_ws by assumption.
  unfold count in *.
  rewrite nth_error_app1 by lia.
  rewrite read4_app_l by (rewrite explicit_ws_length by exact HA; lia).
  reflexivity.
Qed.

Lemma metadata_concat_r A B i :
  0 <= i < count B -> metadata (concat A B) (count A + i) = metadata B i.
Proof.
  intros Hi. unfold metadata, item.
  rewrite concat_count.
  replace ((0 <=? count A + i) && (count A + i <? count A + count B)) with true
    by (symmetry; apply andb_true_iff; unfold count in *;
        split; [apply Z.leb_le | apply Z.ltb_lt]; lia).
  replace ((0 <=? i) && (i <? count B)) with true
    by (symmetry; apply andb_true_iff; split; [apply Z.leb_le | apply Z.ltb_lt]; lia).
  unfold concat. rewrite concatImpl_fXYs. unfold count in *.
  rewrite nth_error_app2 by lia.
  replace (Z.to_nat (Z.of_nat (length (fXYs A)) + i) - length (fXYs A))%nat
    with (Z.to_nat i) by lia.
  reflexivity.
Qed.

(** ** A run of pushes *)

Lemma push_all_affine (qs : list (AnyQuad * GrQuadType * T)) l :
  Forall (declared_at_most kStandard) qs ->
  ws_shape l = true ->
  GrQuadType_leb (fType l) kStandard = true ->
  ws_shape (push_all l qs) = true /\
  GrQuadType_leb (fType (push_all l qs)) kStandard = true /\
  length (fXYs (push_all l qs)) = (length (fXYs l) + length qs)%nat.
Proof.
  intros Hall. revert l.
  induction Hall as [|e qs He _ IH]; intros l Hs Ht.
  - simpl. repeat split; try assumption. lia.
  - cbn [push_all fold_left].
    destruct (IH (push_back l (fst (fst e)) (snd (fst e)) (snd e))) as (H1 & H2 & H3).
    + apply push_back_ws_shape, Hs.
    + rewrite push_back_fType. unfold declared_at_most in He.
      revert Ht He. destruct (fType l), (snd (fst e)); cbv; congruence.
    + repeat split; try assumption.
      unfold push_all in H3. rewrite H3, push_back_length. simpl. lia.
Qed.

End ListClaims.

(* ================================================================== *)
(** * The quad list *)

(** C1.  For lists [A] and [B] a client can build, [A.concat(B)] has
    tracked type [max(tA, tB)] and count [count(A) + count(B)]; every
    index [i] of [B] reads a quad, and index [count(A) + i] of the result
    reads that same quad, weights included, with the same metadata; the
    entries of [A] read as before. *)
Theorem concat_type_count_entries (T : Type) (A B : GrQuadListBase.t T) :
  GrQuadListBase.reachable A ->
  GrQuadListBase.reachable B ->
  let AB := GrQuadListBase.concat A B in
  GrQuadListBase.quadType AB =
    GrQuadType_max (GrQuadListBase.quadType A) (GrQuadListBase.quadType B) /\
  GrQuadListBase.count AB = GrQuadListBase.count A + GrQuadListBase.count B /\
  (forall i, 0 <= i < GrQuadListBase.count B ->
     exists q,
       GrQuadListBase.operator_index B i = Some q /\
       GrQuadListBase.operator_index AB (GrQuadListBase.count A + i) = Some q) /\
  (forall i, 0 <= i < GrQuadListBase.count B ->
     GrQuadListBase.metadata AB (GrQuadListBase.count A + i) =
     GrQuadListBase.metadata B i) /\
  (forall i, 0 <= i < GrQuadListBase.count A ->
     GrQuadListBase.operator_index AB i = GrQuadListBase.operator_index A i).
Proof.
  intros HA HB AB.
  apply reachable_ws_shape in HA, HB.
  split; [apply concatImpl_fType|].
  split; [apply concat_count|].
  split; [|split].
  - intros i Hi.
    destruct (operator_index_in_range B i HB Hi) as [q Hq].
    exists q. split; [exact Hq|].
    unfold AB. rewrite operator_index_concat_r by assumption. exact Hq.
  - intros i Hi. apply metadata_concat_r, Hi.
  - intros i Hi. apply operator_index_concat_l; assumption.
Qed.

Lemma concat_type_count_entries_witness :
  let A := Sample.affine_list in
  let B := Sample.persp_list in
  let AB := GrQuadListBase.concat A B in
  GrQuadListBase.quadType AB = kPerspective /\
  GrQuadListBase.count AB = 2 /\
  GrQuadListBase.operator_index AB 1 = Some Sample.persp.
Proof.
  intros A B AB.
  destruct (concat_type_count_entries unit A B) as (Hty & Hcnt & Hent & _).
  - apply GrQuadListBase.reach_push_back, GrQuadListBase.reach_empty.
  - apply GrQuadListBase.reach_push_back, GrQuadListBase.reach_empty.
  - split; [exact Hty|]. split; [exact Hcnt|].
    destruct (Hent 0) as (q & Hq & Hr).
    + vm_compute. split; [discriminate | reflexivity].
    + vm_compute in Hq. injection Hq as <-. exact Hr.
Defined.

(** C2.  After [N] pushes whose declared type is at most [kStandard] into
    a fresh list, one push declared [kPerspective] leaves the tracked
    type at [kPerspective], and every index below [N] reads a quad whose
    four weights are [1.f]. *)
Theorem backfill_after_perspective_push (T : Type)
    (qs : list (GrQuadListBase.AnyQuad * GrQuadType * T))
    (q : GrQuadListBase.AnyQuad) (md : T) :
  Forall (GrQuadListBase.declared_at_most kStandard) qs ->
  let l := GrQuadListBase.push_back
             (GrQuadListBase.push_all GrQuadListBase.empty qs) q kPerspective md in
  GrQuadListBase.quadType l = kPerspective /\
  forall i, 0 <= i < Z.of_nat (length qs) ->
    exists pq,
      GrQuadListBase.operator_index l i = Some pq /\
      GrPerspQuad.fW pq = kNoPerspectiveWs.
Proof.
  intros Hall l.
  destruct (push_all_affine qs GrQuadListBase.empty Hall eq_refl eq_refl)
    as (Hs & Ht & Hlen).
  set (l0 := GrQuadListBase.push_all GrQuadListBase.empty qs) in *.
  cbn [GrQuadListBase.empty GrQuadListBase.fXYs length Nat.add] in Hlen.
  split.
  - unfold l, GrQuadListBase.quadType.
    rewrite push_back_fType. apply GrQuadType_max_perspective_r.
  - intros i Hi.
    assert (Hs' : GrQuadListBase.ws_shape l = true) by apply push_back_ws_shape, Hs.
    assert (Hcnt : 0 <= i < GrQuadListBase.count l).
    { unfold GrQuadListBase.count, l. rewrite push_back_length, Hlen. lia. }
    rewrite operator_index_explicit by exact Hs'.
    rewrite in_range_true by exact Hcnt.
    destruct (nth_error (GrQuadListBase.fXYs l) (Z.to_nat i)) as [item|] eqn:En.
    2:{ apply nth_error_None in En. unfold GrQuadListBase.count in Hcnt. lia. }
    unfold l at 1. rewrite push_back_explicit_ws by exact Hs.
    assert (He : GrQuadListBase.explicit_ws l0 = repeat F32.one (4 * length qs)).
    { unfold GrQuadListBase.explicit_ws. rewrite Hlen.
      replace (GrQuadType_eqb (GrQuadListBase.fType l0) kPerspective) with false;
        [reflexivity|].
      symmetry. apply GrQuadType_eqb_neq. revert Ht.
      destruct (GrQuadListBase.fType l0); cbv; congruence. }
    rewrite He, read4_app_l by (rewrite repeat_length; lia).
    rewrite read4_repeat_one by lia.
    eexists; split; reflexivity.
Qed.

Lemma backfill_after_perspective_push_witness :
  let qs := [(GrQuadListBase.Quad Sample.quad, kRect, tt);
             (GrQuadListBase.PerspQuad Sample.persp, kStandard, tt)] in
  let l := GrQuadListBase.push_back
             (GrQuadListBase.push_all GrQuadListBase.empty qs)
             (GrQuadListBase.PerspQuad Sample.persp) kPerspective tt in
  GrQuadListBase.quadType l = kPerspective /\
  exists pq, GrQuadListBase.operator_index l 1 = Some pq /\
             GrPerspQuad.fW pq = kNoPerspectiveWs.
Proof.
  intros qs l.
  destruct (backfill_after_perspective_push unit qs
              (GrQuadListBase.PerspQuad Sample.persp) tt) as (Hty & Hw).
  - repeat constructor.
  - split; [exact Hty|]. apply (Hw 1). simpl. lia.
Defined.

(** C3.  In every list a client can build: when the tracked type is
    [kPerspective] the w array holds exactly four floats per entry; when
    it is below [kPerspective] the w array is empty and every index in
    range reads a quad whose four weights are [1.f]. *)
Theorem reachable_weight_storage (T : Type) (l : GrQuadListBase.t T) :
  GrQuadListBase.reachable l ->
  (GrQuadListBase.quadType l = kPerspective ->
     Z.of_nat (length (GrQuadListBase.fWs l)) = 4 * GrQuadListBase.count l) /\
  (GrQuadType_ltb (GrQuadListBase.quadType l) kPerspective = true ->
     GrQuadListBase.fWs l = [] /\
     forall i, 0 <= i < GrQuadListBase.count l ->
       exists q,
         GrQuadListBase.operator_index l i = Some q /\
         GrPerspQuad.fW q = kNoPerspectiveWs).
Proof.
  intros Hr. apply reachable_ws_shape in Hr.
  unfold GrQuadListBase.quadType, GrQuadListBase.count.
  pose proof Hr as Hs. unfold GrQuadListBase.ws_shape in Hs.
  split.
  - intros Hp. rewrite Hp in Hs. cbn in Hs. apply Nat.eqb_eq in Hs. lia.
  - intros Hlt. apply GrQuadType_below_perspective, GrQuadType_eqb_neq in Hlt.
    rewrite Hlt in Hs. apply Nat.eqb_eq, length_zero_iff_nil in Hs.
    split; [exact Hs|].
    intros i Hi. unfold GrQuadListBase.operator_index.
    rewrite in_range_true by exact Hi. rewrite Hlt.
    destruct (nth_error (GrQuadListBase.fXYs l) (Z.to_nat i)) as [item|] eqn:En.
    + eexists; split; reflexivity.
    + apply nth_error_None in En. lia.
Qed.

Lemma reachable_weight_storage_witness :
  Z.of_nat (length (GrQuadListBase.fWs Sample.persp_list)) = 4 /\
  GrQuadListBase.fWs Sample.affine_list = [].
Proof.
  split.
  - apply (reachable_weight_storage unit Sample.persp_list).
    + apply GrQuadListBase.reach_push_back, GrQuadListBase.reach_empty.
    + reflexivity.
  - apply (reachable_weight_storage unit Sample.affine_list).
    + apply GrQuadListBase.reach_push_back, GrQuadListBase.reach_empty.
    + reflexivity.
Defined.

(** C7.  No operation of the list lowers the tracked type.  Whatever the
    starting state and the arguments, [count], [quadType], [reserve],
    [operator[]], [push_back], [concat] and both [metadata] accessors
    either leave a list whose tracked type is at least the old one, or
    the operation is an indexed access whose index is out of range. *)
Theorem tracked_type_never_decreases (T : Type) (l : GrQuadListBase.t T)
    (op : GrQuadListBase.Op) :
  match GrQuadListBase.step l op with
  | Some l' =>
      GrQuadType_leb (GrQuadListBase.quadType l) (GrQuadListBase.quadType l') = true
  | None =>
      exists i, GrQuadListBase.op_index op = Some i /\
                ~ (0 <= i < GrQuadListBase.count l)
  end.
Proof.
  unfold GrQuadListBase.quadType.
  destruct op as [ | | cnt forType | i | q type md | that | i | i v ];
    cbn [GrQuadListBase.step].
  - apply GrQuadType_leb_refl.
  - apply GrQuadType_leb_refl.
  - rewrite reserve_same. apply GrQuadType_leb_refl.
  - destruct ((i <? GrQuadListBase.count l) && (0 <=? i)) eqn:Hr.
    + apply GrQuadType_leb_refl.
    + exists i. split; [reflexivity|]. intros Hi.
      rewrite in_range_true in Hr by exact Hi. discriminate.
  - rewrite push_back_fType. apply GrQuadType_leb_max_l.
  - unfold GrQuadListBase.concat. rewrite concatImpl_fType. apply GrQuadType_leb_max_l.
  - unfold GrQuadListBase.metadata, GrQuadListBase.item.
    destruct ((0 <=? i) && (i <? GrQuadListBase.count l)) eqn:Hr.
    + destruct (nth_error (GrQuadListBase.fXYs l) (Z.to_nat i)) eqn:En; cbn [option_map].
      * apply GrQuadType_leb_refl.
      * apply andb_true_iff in Hr. destruct Hr as [H0 H1].
        apply Z.leb_le in H0. apply Z.ltb_lt in H1.
        apply nth_error_None in En. unfold GrQuadListBase.count in H1. lia.
    + exists i. split; [reflexivity|]. intros Hi.
      apply andb_false_iff in Hr. destruct Hr as [Hr|Hr].
      * apply Z.leb_gt in Hr. lia.
      * apply Z.ltb_ge in Hr. lia.
  - destruct (GrQuadListBase.set_metadata l i v) as [l'|] eqn:Hs.
    + rewrite (set_metadata_fType _ _ _ _ Hs). apply GrQuadType_leb_refl.
    + exists i. split; [reflexivity|]. intros Hi.
      unfold GrQuadListBase.set_metadata in Hs.
      destruct ((0 <=? i) && (i <? GrQuadListBase.count l)) eqn:Hr; [discriminate|].
      apply andb_false_iff in Hr. destruct Hr as [Hr|Hr].
      * apply Z.leb_gt in Hr. lia.
      * apply Z.ltb_ge in Hr. lia.
Qed.


(* ================================================================== *)
(** * Weights *)

(** [w != 1.f] holds exactly for the values other than [1.f]: NaN, the
    infinities and the zeros included. *)
Lemma neb_one_iff (x : float) : F32.neb x F32.one = true <-> x <> F32.one.
Proof.
  unfold F32.neb, F32.one, SFeqb, SFcompare.
  destruct x as [s|s| |s m e]; try (split; [intros _; discriminate | reflexivity]).
  - destruct s; split; try (intros _; discriminate); reflexivity.
  - destruct s; [split; [intros _; discriminate | reflexivity]|].
    destruct (Z.compare_spec e (-23)) as [He|He|He].
    + subst e. change (Pos.compare_cont Eq m 8388608) with (Pos.compare m 8388608).
      destruct (Pos.compare_spec m 8388608) as [Hm|Hm|Hm].
      * subst m. split; [discriminate | intros H; exfalso; apply H; reflexivity].
      * split; [intros _ H; inversion H; subst m; lia | reflexivity].
      * split; [intros _ H; inversion H; subst m; lia | reflexivity].
    + split; [intros _ H; inversion H; subst e; lia | reflexivity].
    + split; [intros _ H; inversion H; subst e; lia | reflexivity].
Qed.

(** C9.  [hasPerspective()] is true exactly when one of the four stored
    weights is not [1.f]; and it is false on every quad read out of a list
    whose tracked type is below [kPerspective]. *)
Theorem hasPerspective_iff_weight_not_one :
  (forall q : GrPerspQuad.t,
     GrPerspQuad.hasPerspective q = true <->
     (at0 (GrPerspQuad.fW q) <> F32.one \/ at1 (GrPerspQuad.fW q) <> F32.one \/
      at2 (GrPerspQuad.fW q) <> F32.one \/ at3 (GrPerspQuad.fW q) <> F32.one)) /\
  (forall (T : Type) (l : GrQuadListBase.t T) (i : Z) (q : GrPerspQuad.t),
     GrQuadType_ltb (GrQuadListBase.quadType l) kPerspective = true ->
     GrQuadListBase.operator_index l i = Some q ->
     GrPerspQuad.hasPerspective q = false).
Proof.
  split.
  - intros q.
    unfold GrPerspQuad.hasPerspective, GrPerspQuad.w4f, Sk4f.Load, Sk4f.ne,
      Sk4f.anyTrue, Sk4f.splat.
    cbn [at0 at1 at2 at3].
    rewrite !orb_true_iff, !neb_one_iff. tauto.
  - intros T l i q Hlt Hq.
    apply GrQuadType_below_perspective, GrQuadType_eqb_neq in Hlt.
    unfold GrQuadListBase.quadType in Hlt.
    unfold GrQuadListBase.operator_index in Hq. rewrite Hlt in Hq.
    destruct ((i <? GrQuadListBase.count l) && (0 <=? i)); [|discriminate].
    destruct (nth_error (GrQuadListBase.fXYs l) (Z.to_nat i)); [|discriminate].
    injection Hq as <-. reflexivity.
Qed.

Lemma hasPerspective_iff_weight_not_one_witness :
  GrPerspQuad.hasPerspective Sample.persp = true /\
  GrPerspQuad.hasPerspective
    (GrPerspQuad.mk (GrQuad.fX Sample.quad) (GrQuad.fY Sample.quad) kNoPerspectiveWs) = false.
Proof.
  split.
  - apply (proj1 hasPerspective_iff_weight_not_one Sample.persp).
    left. discriminate.
  - apply (proj2 hasPerspective_iff_weight_not_one unit Sample.affine_list 0).
    + reflexivity.
    + reflexivity.
Defined.

(* ================================================================== *)
(** * The scene-graph factory *)

(** C10.  [GeometryTransform::Make] returns [nullptr] exactly when one of
    its two arguments is null; with both non-null it returns a node whose
    child and transform are those two arguments. *)
Theorem Make_null_iff_argument_null (GeometryNode Transform SkPath : Type)
    (SkPath_default : SkPath)
    (child : sksg.sk_sp GeometryNode) (transform : sksg.sk_sp Transform) :
  (sksg.Make GeometryNode Transform SkPath SkPath_default child transform = None <->
   (child = None \/ transform = None)) /\
  (child <> None -> transform <> None ->
   exists node,
     sksg.Make GeometryNode Transform SkPath SkPath_default child transform = Some node /\
     sksg.fChild node = child /\
     sksg.fTransform node = transform /\
     sksg.getTransform node = transform).
Proof.
  unfold sksg.Make.
  destruct child as [c|], transform as [t|]; cbn [sksg.isNonNull andb]; split.
  - split; [discriminate | intros [H|H]; discriminate].
  - intros _ _. eexists. repeat split.
  - split; [intros _; right; reflexivity | reflexivity].
  - intros _ H. exfalso. apply H. reflexivity.
  - split; [intros _; left; reflexivity | reflexivity].
  - intros H. exfalso. apply H. reflexivity.
  - split; [intros _; left; reflexivity | reflexivity].
  - intros H. exfalso. apply H. reflexivity.
Qed.

Lemma Make_null_iff_argument_null_witness :
  exists node,
    sksg.Make nat nat unit tt (Some 1%nat) (Some 2%nat) = Some node /\
    sksg.fChild node = Some 1%nat /\
    sksg.fTransform node = Some 2%nat /\
    sksg.getTransform node = Some 2%nat.
Proof.
  apply (Make_null_iff_argument_null nat nat unit tt (Some 1%nat) (Some 2%nat));
    discriminate.
Defined.

(* ================================================================== *)
(** * Classification *)

Lemma Qeq_bool_same (a b : Q) : (a == b)%Q -> Qeq_bool a b = true.
Proof. apply Qeq_bool_iff. Qed.

Lemma identity_mapsRectToRect (r : Classify.Rect) :
  Classify.mapsRectToRect Classify.identity r = true.
Proof.
  unfold Classify.mapsRectToRect.
  change (Classify.hasPerspective Classify.identity) with false.
  cbn [negb andb]. apply orb_true_iff. left.
  unfold Classify.mapX, Classify.mapY, Classify.identity; cbn.
  rewrite !andb_true_iff. repeat split; apply Qeq_bool_same; ring.
Qed.

Lemma rotate90_mapsRectToRect (r : Classify.Rect) :
  Classify.mapsRectToRect Classify.rotate90 r = true.
Proof.
  unfold Classify.mapsRectToRect.
  change (Classify.hasPerspective Classify.rotate90) with false.
  cbn [negb andb]. apply orb_true_iff. right.
  unfold Classify.mapX, Classify.mapY, Classify.rotate90; cbn.
  rewrite !andb_true_iff. repeat split; apply Qeq_bool_same; ring.
Qed.

(** C5, as the model has it.  The four cases are tried in order and the
    first that matches wins: [kRect] when the transform maps the rectangle
    to a rectangle; else [kRectilinear] without perspective and skew; else
    [kStandard] without perspective; else [kPerspective].  The identity
    gives [kRect] on every rectangle, and so does a quarter turn, whose
    corners satisfy the second pairing of step 1. *)
Theorem classify_first_match (r : Classify.Rect) :
  (forall m : Classify.Matrix,
     Classify.GrQuadTypeForTransformedRect r m =
       match Classify.mapsRectToRect m r, Classify.hasPerspective m, Classify.hasSkew m with
       | true, _, _ => kRect
       | false, false, false => kRectilinear
       | false, false, true => kStandard
       | false, true, _ => kPerspective
       end) /\
  Classify.GrQuadTypeForTransformedRect r Classify.identity = kRect /\
  Classify.GrQuadTypeForTransformedRect r Classify.rotate90 = kRect.
Proof.
  split; [|split].
  - intros m. unfold Classify.GrQuadTypeForTransformedRect.
    destruct (Classify.mapsRectToRect m r), (Classify.hasPerspective m),
      (Classify.hasSkew m); reflexivity.
  - unfold Classify.GrQuadTypeForTransformedRect.
    rewrite identity_mapsRectToRect. reflexivity.
  - unfold Classify.GrQuadTypeForTransformedRect.
    rewrite rotate90_mapsRectToRect. reflexivity.
Qed.

(** C5 as stated fails: on the rectangle [(0, 0, 4, 2)] a quarter turn is
    not classified [kRectilinear]. *)
Lemma rotate90_not_rectilinear :
  Classify.GrQuadTypeForTransformedRect (Classify.mkRect 0 0 4 2) Classify.rotate90
    <> kRectilinear.
Proof. vm_compute. discriminate. Qed.

(* ================================================================== *)
(** * Anti-aliasing resolution *)

(** C4, as the model has it.  A [kRect] quad on which AA has no effect
    resolves to type none with every edge flag cleared, whatever was
    requested.  A quad of a type above [kRect] keeps the requested type,
    and keeps the requested edge flags unless the requested type is none,
    in which case the flags are cleared. *)
Theorem resolve_rect_and_above (Q : Type) (aaHasEffectOnRect : Q -> bool)
    (requestedAAType : GrAAType.t) (requestedEdgeFlags : GrQuadAAFlags.t) (quad : Q) :
  (aaHasEffectOnRect quad = false ->
   GrResolveAATypeForQuad aaHasEffectOnRect requestedAAType requestedEdgeFlags quad kRect =
     (GrAAType.kNone, GrQuadAAFlags.kNone)) /\
  (forall knownQuadType : GrQuadType,
     GrQuadType_ltb kRect knownQuadType = true ->
     GrResolveAATypeForQuad aaHasEffectOnRect requestedAAType requestedEdgeFlags quad
       knownQuadType =
     (requestedAAType,
      match requestedAAType with
      | GrAAType.kNone => GrQuadAAFlags.kNone
      | _ => requestedEdgeFlags
      end)).
Proof.
  split.
  - intros Hno. unfold GrResolveAATypeForQuad. rewrite Hno.
    destruct requestedAAType; reflexivity.
  - intros known Hgt. unfold GrResolveAATypeForQuad.
    replace (GrQuadType_eqb known kRect) with false by (destruct known; cbv in *; congruence).
    destruct requestedAAType; reflexivity.
Qed.

Lemma resolve_rect_and_above_witness :
  GrResolveAATypeForQuad (fun _ : GrQuad.t => false)
    GrAAType.kCoverage GrQuadAAFlags.kAll Sample.quad kRect =
    (GrAAType.kNone, GrQuadAAFlags.kNone) /\
  GrResolveAATypeForQuad (fun _ : GrQuad.t => false)
    GrAAType.kCoverage GrQuadAAFlags.kAll Sample.quad kStandard =
    (GrAAType.kCoverage, GrQuadAAFlags.kAll).
Proof.
  split.
  - apply (resolve_rect_and_above GrQuad.t (fun _ => false)
             GrAAType.kCoverage GrQuadAAFlags.kAll Sample.quad).
    reflexivity.
  - apply (resolve_rect_and_above GrQuad.t (fun _ => false)
             GrAAType.kCoverage GrQuadAAFlags.kAll Sample.quad).
    reflexivity.
Defined.

(** C4 as stated fails: with a requested type of none and every edge
    flagged, a [kStandard] quad gets its flags cleared instead of keeping
    them. *)
Lemma resolve_none_clears_flags :
  GrResolveAATypeForQuad (fun _ : GrQuad.t => true)
    GrAAType.kNone GrQuadAAFlags.kAll Sample.quad kStandard
    <> (GrAAType.kNone, GrQuadAAFlags.kAll).
Proof. vm_compute. discriminate. Qed.

(* ================================================================== *)
(** * binary32 arithmetic used by [bounds] *)

(** What [valid] says of a finite value: at most 24 mantissa bits, an
    exponent between -149 and 104, and either a full mantissa or the
    smallest exponent. *)
Lemma bounded_cases (m : positive) (e : Z) :
  bounded F32.prec F32.emax m e = true ->
  Zpos (digits2_pos m) <= 24 /\ -149 <= e <= 104 /\
  (Zpos (digits2_pos m) = 24 \/ e = -149).
Proof.
  unfold bounded, canonical_mantissa, fexp, emin, F32.prec, F32.emax.
  intros H. apply andb_true_iff in H. destruct H as [H1 H2].
  apply Z.eqb_eq in H1. apply Z.leb_le in H2. lia.
Qed.

Lemma fexp_binary32 (k : Z) : fexp F32.prec F32.emax k = Z.max (k - 24) (-149).
Proof. reflexivity. Qed.

Lemma mul_two_pow_23 (m : positive) : Pos.mul m 8388608 = Pos.iter xO m 23.
Proof. rewrite Pos.mul_comm. reflexivity. Qed.



(** Rounding, once its first shift is known. *)
Lemma binary_round_aux_step (s : bool) (mx ex : Z) (lx : location)
    (r : shr_record) (e' : Z) :
  shr_fexp F32.prec F32.emax mx ex lx = (r, e') ->
  binary_round_aux F32.prec F32.emax s mx ex lx =
    let '(mrs'', e'') :=
      shr_fexp F32.prec F32.emax
        (round_nearest_even (shr_m r) (loc_of_shr_record r)) e' loc_Exact in
    match shr_m mrs'' with
    | Z0 => S754_zero s
    | Zpos m =>
        if Z.leb e'' (F32.emax - F32.prec) then S754_finite s m e'' else S754_infinity s
    | Zneg _ => S754_nan
    end.
Proof. intros H. unfold binary_round_aux. rewrite H. reflexivity. Qed.

(** A canonical mantissa is not shifted. *)
Lemma shr_fexp_canonical (m : positive) (e : Z) (l : location) :
  fexp F32.prec F32.emax (Zpos (digits2_pos m) + e) = e ->
  shr_fexp F32.prec F32.emax (Zpos m) e l = (shr_record_of_loc (Zpos m) l, e).
Proof.
  intros H. unfold shr_fexp. cbn [Zdigits2]. rewrite H, Z.sub_diag. reflexivity.
Qed.



(** [x * 1.f] is [x]. *)
Lemma mul_one_r (x : float) : F32.valid x = true -> F32.mul x F32.one = x.
Proof.
  unfold F32.valid, F32.mul.
  destruct x as [s|s| |s m e]; cbn [valid_binary SFmul F32.one];
    rewrite ?xorb_false_r; try reflexivity.
  intros Hb. destruct (bounded_cases m e Hb) as (Hd & He & Hc).
  rewrite mul_two_pow_23.
  rewrite (binary_round_aux_step s _ _ _ (Build_shr_record (Zpos m) false false) e).
  - cbn [shr_m loc_of_shr_record round_nearest_even].
    rewrite shr_fexp_canonical by (rewrite fexp_binary32; lia).
    cbn [shr_record_of_loc shr_m].
    replace (e <=? F32.emax - F32.prec) with true
      by (symmetry; apply Z.leb_le; unfold F32.emax, F32.prec; lia).
    reflexivity.
  - unfold shr_fexp.
    replace (fexp F32.prec F32.emax (Zdigits2 (Z.pos (Pos.iter xO m 23)) + (e + -23))
             - (e + -23)) with 23
      by (rewrite fexp_binary32; cbn [Pos.iter Zdigits2 digits2_pos]; lia).
    cbn [Pos.iter shr_record_of_loc shr iter_pos shr_1 orb].
    f_equal. lia.
Qed.







Lemma float4_valid_lanes (a : float4) :
  float4_valid a = true ->
  F32.valid (at0 a) = true /\ F32.valid (at1 a) = true /\
  F32.valid (at2 a) = true /\ F32.valid (at3 a) = true.
Proof.
  unfold float4_valid. rewrite !andb_true_iff. tauto.
Qed.


(* ================================================================== *)
(** * Further properties of the quad list *)

Section ListMore.

Context {T : Type}.
Import GrQuadListBase.

Implicit Types l that A B C : GrQuadListBase.t T.

Lemma push_back_fXYs l q type md :
  fXYs (push_back l q type md) =
  fXYs l ++ [QuadData.mk (AnyQuad_fX q) (AnyQuad_fY q) md].
Proof.
  destruct q as [q|q]; cbn [push_back AnyQuad_fX AnyQuad_fY];
    unfold pushBackImpl_quad, pushBackImpl_persp;
    destruct (GrQuadType_eqb (fType (upgradeType l type)) kPerspective);
    cbn [fXYs]; rewrite upgradeType_fXYs; reflexivity.
Qed.

Lemma push_back_count l q type md : count (push_back l q type md) = count l + 1.
Proof. unfold count. rewrite push_back_length. lia. Qed.

Lemma pushed_ws_read l q type :
  read4 (pushed_ws l q type) 0 = Some (stored_fW l q type).
Proof.
  destruct q as [q|q]; cbn [pushed_ws stored_fW]; [reflexivity|].
  destruct (GrQuadType_eqb (GrQuadType_max (fType l) type) kPerspective);
    [apply read4_float4_to_list | reflexivity].
Qed.

Lemma operator_index_push_last l q type md :
  ws_shape l = true ->
  operator_index (push_back l q type md) (count l) =
    Some (GrPerspQuad.mk (AnyQuad_fX q) (AnyQuad_fY q) (stored_fW l q type)).
Proof.
  intros Hs.
  rewrite operator_index_explicit by (apply push_back_ws_shape, Hs).
  rewrite in_range_true by (rewrite push_back_count; unfold count; lia).
  rewrite push_back_fXYs, push_back_explicit_ws by exact Hs.
  unfold count. rewrite Nat2Z.id.
  rewrite nth_error_app2, Nat.sub_diag by lia. cbn [nth_error].
  rewrite (read4_app_r _ _ _ 0)
    by (rewrite explicit_ws_length by exact Hs; lia).
  rewrite pushed_ws_read. reflexivity.
Qed.

Lemma operator_index_push_earlier l q type md i :
  ws_shape l = true -> 0 <= i < count l ->
  operator_index (push_back l q type md) i = operator_index l i.
Proof.
  intros Hs Hi.
  rewrite (operator_index_explicit (push_back l q type md))
    by (apply push_back_ws_shape, Hs).
  rewrite (operator_index_explicit l) by exact Hs.
  rewrite !in_range_true by (rewrite ?push_back_count; lia).
  rewrite push_back_fXYs, push_back_explicit_ws by exact Hs.
  unfold count in Hi.
  rewrite nth_error_app1 by lia.
  rewrite read4_app_l by (rewrite explicit_ws_length by exact Hs; lia).
  reflexivity.
Qed.

Lemma item_in_range l i :
  0 <= i < count l -> item l i = nth_error (fXYs l) (Z.to_nat i).
Proof.
  intros Hi. unfold item.
  replace ((0 <=? i) && (i <? count l)) with true; [reflexivity|].
  symmetry. apply andb_true_iff. split; [apply Z.leb_le | apply Z.ltb_lt]; lia.
Qed.

Lemma metadata_push_last l q type md :
  metadata (push_back l q type md) (count l) = Some md.
Proof.
  unfold metadata.
  rewrite item_in_range by (rewrite push_back_count; unfold count; lia).
  rewrite push_back_fXYs. unfold count. rewrite Nat2Z.id.
  rewrite nth_error_app2, Nat.sub_diag by lia. reflexivity.
Qed.

Lemma metadata_push_earlier l q type md i :
  0 <= i < count l -> metadata (push_back l q type md) i = metadata l i.
Proof.
  intros Hi. unfold metadata.
  rewrite !item_in_range by (rewrite ?push_back_count; lia).
  rewrite push_back_fXYs. unfold count in Hi.
  rewrite nth_error_app1 by lia. reflexivity.
Qed.

End ListMore.

(** X1.  Reading back the entry a [push_back] has just added, on a list
    a client can build: [operator[]] at the old count returns the pushed
    x and y lanes; the weights are the quad's own when a [GrPerspQuad] is
    pushed and the list is [kPerspective] after the push, and four ones in
    every other case, so a [GrPerspQuad] declared below [kPerspective] in
    a list below [kPerspective] loses its weights.  [metadata] at that
    index returns the pushed metadata. *)
Theorem push_back_read_back (T : Type) (l : GrQuadListBase.t T)
    (q : GrQuadListBase.AnyQuad) (type : GrQuadType) (md : T) :
  GrQuadListBase.reachable l ->
  GrQuadListBase.operator_index (GrQuadListBase.push_back l q type md)
    (GrQuadListBase.count l) =
    Some (GrPerspQuad.mk (AnyQuad_fX q) (AnyQuad_fY q) (stored_fW l q type)) /\
  GrQuadListBase.metadata (GrQuadListBase.push_back l q type md)
    (GrQuadListBase.count l) = Some md.
Proof.
  intros Hr. apply reachable_ws_shape in Hr. split.
  - apply operator_index_push_last, Hr.
  - apply metadata_push_last.
Qed.

Lemma push_back_read_back_witness :
  GrQuadListBase.operator_index
    (GrQuadListBase.push_back Sample.affine_list
       (GrQuadListBase.PerspQuad Sample.persp) kStandard tt) 1 =
    Some (GrPerspQuad.mk (GrQuad.fX Sample.quad) (GrQuad.fY Sample.quad) kNoPerspectiveWs).
Proof.
  apply (push_back_read_back unit Sample.affine_list
           (GrQuadListBase.PerspQuad Sample.persp) kStandard tt).
  apply GrQuadListBase.reach_push_back, GrQuadListBase.reach_empty.
Defined.

(** X2.  A [push_back] never changes what is already stored: on a list a
    client can build, every index in range reads the same quad, weights
    included, and the same metadata after the push as before, also when
    the push upgrades the list to [kPerspective]. *)
Theorem push_back_keeps_entries (T : Type) (l : GrQuadListBase.t T)
    (q : GrQuadListBase.AnyQuad) (type : GrQuadType) (md : T) (i : Z) :
  GrQuadListBase.reachable l ->
  0 <= i < GrQuadListBase.count l ->
  GrQuadListBase.operator_index (GrQuadListBase.push_back l q type md) i =
    GrQuadListBase.operator_index l i /\
  GrQuadListBase.metadata (GrQuadListBase.push_back l q type md) i =
    GrQuadListBase.metadata l i.
Proof.
  intros Hr Hi. apply reachable_ws_shape in Hr. split.
  - apply operator_index_push_earlier; assumption.
  - apply metadata_push_earlier, Hi.
Qed.

Lemma push_back_keeps_entries_witness :
  GrQuadListBase.operator_index
    (GrQuadListBase.push_back Sample.affine_list
       (GrQuadListBase.PerspQuad Sample.persp) kPerspective tt) 0 =
  GrQuadListBase.operator_index Sample.affine_list 0.
Proof.
  apply (push_back_keeps_entries unit Sample.affine_list
           (GrQuadListBase.PerspQuad Sample.persp) kPerspective tt 0).
  - apply GrQuadListBase.reach_push_back, GrQuadListBase.reach_empty.
  - vm_compute. split; [discriminate | reflexivity].
Defined.

Section ListMetadata.

Context {T : Type}.
Import GrQuadListBase.

Implicit Types l that A B C : GrQuadListBase.t T.

Lemma nth_error_set_nth (xs : list (QuadData.t T)) (k j : nat) (v : T) :
  nth_error (set_nth xs k v) j =
  option_map
    (fun d => if (j =? k)%nat then QuadData.mk (QuadData.fX d) (QuadData.fY d) v else d)
    (nth_error xs j).
Proof.
  revert k j. induction xs as [|d xs IH]; intros k j.
  - destruct k, j; reflexivity.
  - destruct k as [|k], j as [|j]; cbn [set_nth nth_error option_map Nat.eqb];
      try reflexivity.
    + destruct (nth_error xs j); reflexivity.
    + apply IH.
Qed.

Lemma set_metadata_in_range l i v :
  0 <= i < count l ->
  set_metadata l i v =
    Some {| fXYs := set_nth (fXYs l) (Z.to_nat i) v; fWs := fWs l; fType := fType l |}.
Proof.
  intros Hi. unfold set_metadata.
  replace ((0 <=? i) && (i <? count l)) with true; [reflexivity|].
  symmetry. apply andb_true_iff. split; [apply Z.leb_le | apply Z.ltb_lt]; lia.
Qed.

Lemma set_metadata_count l i v l' : set_metadata l i v = Some l' -> count l' = count l.
Proof.
  unfold set_metadata. destruct ((0 <=? i) && (i <? count l)); intros H; inversion H.
  unfold count; cbn [fXYs]. rewrite set_nth_length. reflexivity.
Qed.

Lemma set_metadata_operator_index l i v l' j :
  set_metadata l i v = Some l' -> operator_index l' j = operator_index l j.
Proof.
  intros H. pose proof (set_metadata_count _ _ _ _ H) as Hc.
  unfold operator_index. rewrite Hc.
  unfold set_metadata in H.
  destruct ((0 <=? i) && (i <? count l)); inversion H; subst l'; clear H.
  cbn [fXYs fWs fType]. rewrite nth_error_set_nth.
  destruct (nth_error (fXYs l) (Z.to_nat j)) as [d|]; cbn [option_map]; [|reflexivity].
  destruct (Z.to_nat j =? Z.to_nat i)%nat; reflexivity.
Qed.

Lemma set_metadata_metadata l i v l' j :
  set_metadata l i v = Some l' ->
  metadata l' j = if j =? i then Some v else metadata l j.
Proof.
  intros H. pose proof (set_metadata_count _ _ _ _ H) as Hc.
  unfold metadata, item. rewrite Hc.
  unfold set_metadata in H.
  destruct ((0 <=? i) && (i <? count l)) eqn:Hi; inversion H; subst l'; clear H.
  apply andb_true_iff in Hi. destruct Hi as [Hi0 Hi1].
  apply Z.leb_le in Hi0. apply Z.ltb_lt in Hi1.
  cbn [fXYs]. 
  destruct (Z.eqb_spec j i) as [->|Hne].
  - replace ((0 <=? i) && (i <? count l)) with true
      by (symmetry; apply andb_true_iff; split; [apply Z.leb_le | apply Z.ltb_lt]; lia).
    rewrite nth_error_set_nth, Nat.eqb_refl.
    destruct (nth_error (fXYs l) (Z.to_nat i)) as [d|] eqn:En; [reflexivity|].
    apply nth_error_None in En. unfold count in Hi1. lia.
  - destruct ((0 <=? j) && (j <? count l)) eqn:Hj; [|reflexivity].
    apply andb_true_iff in Hj. destruct Hj as [Hj0 Hj1].
    apply Z.leb_le in Hj0. apply Z.ltb_lt in Hj1.
    rewrite nth_error_set_nth.
    replace (Z.to_nat j =? Z.to_nat i)%nat with false
      by (symmetry; apply Nat.eqb_neq; lia).
    destruct (nth_error (fXYs l) (Z.to_nat j)); reflexivity.
Qed.

End ListMetadata.

(** X3.  Writing metadata through [metadata(i)] at an index in range
    succeeds; afterwards [metadata(i)] reads the written value, every
    other index reads the metadata it had, every [operator[]] reads the
    quad it read before, and count and tracked type are unchanged. *)
Theorem metadata_write_then_read (T : Type) (l : GrQuadListBase.t T) (i : Z) (v : T) :
  0 <= i < GrQuadListBase.count l ->
  exists l',
    GrQuadListBase.set_metadata l i v = Some l' /\
    GrQuadListBase.metadata l' i = Some v /\
    (forall j, j <> i -> GrQuadListBase.metadata l' j = GrQuadListBase.metadata l j) /\
    (forall j, GrQuadListBase.operator_index l' j = GrQuadListBase.operator_index l j) /\
    GrQuadListBase.count l' = GrQuadListBase.count l /\
    GrQuadListBase.quadType l' = GrQuadListBase.quadType l.
Proof.
  intros Hi. eexists. split; [apply set_metadata_in_range, Hi|].
  pose proof (set_metadata_in_range l i v Hi) as Hs.
  split; [|split; [|split; [|split]]].
  - rewrite (set_metadata_metadata _ _ _ _ i Hs), Z.eqb_refl. reflexivity.
  - intros j Hne. rewrite (set_metadata_metadata _ _ _ _ j Hs).
    destruct (Z.eqb_spec j i); [contradiction | reflexivity].
  - intros j. apply (set_metadata_operator_index _ _ _ _ j Hs).
  - apply (set_metadata_count _ _ _ _ Hs).
  - reflexivity.
Qed.

Lemma metadata_write_then_read_witness :
  exists l',
    GrQuadListBase.set_metadata
      (GrQuadListBase.push_back GrQuadListBase.empty
         (GrQuadListBase.Quad Sample.quad) kRect 7%nat) 0 9%nat = Some l' /\
    GrQuadListBase.metadata l' 0 = Some 9%nat.
Proof.
  destruct (metadata_write_then_read nat
              (GrQuadListBase.push_back GrQuadListBase.empty
                 (GrQuadListBase.Quad Sample.quad) kRect 7%nat) 0 9%nat)
    as (l' & Hs & Hm & _).
  - vm_compute. split; [discriminate | reflexivity].
  - exists l'. split; assumption.
Defined.

Section ListAlgebra.

Context {T : Type}.
Import GrQuadListBase.

Implicit Types l that A B C : GrQuadListBase.t T.

Lemma GrQuadType_max_assoc (a b c : GrQuadType) :
  GrQuadType_max (GrQuadType_max a b) c = GrQuadType_max a (GrQuadType_max b c).
Proof. destruct a, b, c; reflexivity. Qed.

Lemma GrQuadType_max_kRect_l (a : GrQuadType) : GrQuadType_max kRect a = a.
Proof. destruct a; reflexivity. Qed.

Lemma GrQuadType_max_kRect_r (a : GrQuadType) : GrQuadType_max a kRect = a.
Proof. destruct a; reflexivity. Qed.

Lemma push_all_type_count (qs : list (AnyQuad * GrQuadType * T)) l :
  fType (push_all l qs) = max_declared (fType l) qs /\
  count (push_all l qs) = count l + Z.of_nat (length qs).
Proof.
  revert l. induction qs as [|e qs IH]; intros l.
  - cbn. split; [reflexivity | lia].
  - cbn [push_all fold_left max_declared length].
    destruct (IH (push_back l (fst (fst e)) (snd (fst e)) (snd e))) as [H1 H2].
    unfold push_all in H1, H2. rewrite H1, H2.
    rewrite push_back_fType, push_back_count. split; [reflexivity | lia].
Qed.

(** Two lists in good shape with the same type, entries and written-out
    w channel are the same list. *)
Lemma ws_shape_ext A B :
  ws_shape A = true -> ws_shape B = true ->
  fType A = fType B -> fXYs A = fXYs B -> explicit_ws A = explicit_ws B ->
  A = B.
Proof.
  destruct A as [xa wa ta], B as [xb wb tb].
  unfold ws_shape, explicit_ws; cbn [fType fXYs fWs].
  intros HA HB -> -> He.
  destruct (GrQuadType_eqb tb kPerspective).
  - rewrite He. reflexivity.
  - apply Nat.eqb_eq, length_zero_iff_nil in HA, HB. subst. reflexivity.
Qed.

Lemma concat_empty_r l : concat l empty = l.
Proof.
  unfold concat, concatImpl, upgradeType, empty, count, push_back_n_array,
    push_back_n_value; cbn [fType fXYs fWs length].
  replace (GrQuadType_ltb (fType l) kRect) with false by (destruct (fType l); reflexivity).
  destruct l as [xys ws ty]; cbn [fType fXYs fWs].
  destruct (GrQuadType_eqb ty kPerspective); cbn; rewrite ?app_nil_r; reflexivity.
Qed.

Lemma concat_empty_l l : ws_shape l = true -> concat empty l = l.
Proof.
  intros Hs. apply ws_shape_ext.
  - apply concatImpl_ws_shape; [reflexivity | exact Hs].
  - exact Hs.
  - unfold concat. rewrite concatImpl_fType. apply GrQuadType_max_kRect_l.
  - unfold concat. rewrite concatImpl_fXYs. reflexivity.
  - unfold concat. rewrite concatImpl_explicit_ws by (reflexivity || exact Hs).
    reflexivity.
Qed.

Lemma concat_assoc_shape A B C :
  ws_shape A = true -> ws_shape B = true -> ws_shape C = true ->
  concat (concat A B) C = concat A (concat B C).
Proof.
  intros HA HB HC. unfold concat.
  assert (HAB : ws_shape (concatImpl A B) = true) by (apply concatImpl_ws_shape; assumption).
  assert (HBC : ws_shape (concatImpl B C) = true) by (apply concatImpl_ws_shape; assumption).
  apply ws_shape_ext.
  - apply concatImpl_ws_shape; assumption.
  - apply concatImpl_ws_shape; assumption.
  - rewrite !concatImpl_fType. apply GrQuadType_max_assoc.
  - rewrite !concatImpl_fXYs. symmetry. apply app_assoc.
  - rewrite !concatImpl_explicit_ws by assumption. symmetry. apply app_assoc.
Qed.

(** A list with no entries that a client can build is the fresh list. *)
Lemma reachable_no_entries l : reachable l -> count l = 0 -> l = empty.
Proof.
  induction 1 as [ | l cnt forType _ IH | l q type md _ IH
                   | l that _ IHl _ IHt | l i v l' _ IH Hset ]; intros Hc.
  - reflexivity.
  - rewrite reserve_same in *. apply IH, Hc.
  - rewrite push_back_count in Hc. unfold count in Hc. lia.
  - unfold concat, count in Hc. rewrite concatImpl_fXYs, length_app in Hc.
    rewrite IHl, IHt by (unfold count; lia). apply concat_empty_r.
  - rewrite (set_metadata_count _ _ _ _ Hset) in Hc.
    rewrite (IH Hc) in Hset. exfalso.
    unfold set_metadata, count, empty in Hset. cbn [fXYs length Z.of_nat] in Hset.
    destruct ((0 <=? i) && (i <? 0)) eqn:E; [|discriminate Hset].
    apply andb_true_iff in E. destruct E as [E1 E2].
    apply Z.leb_le in E1. apply Z.ltb_lt in E2. lia.
Qed.

End ListAlgebra.

(** X4.  After any run of pushes the tracked type is the largest of the
    starting type and the declared types, and the count has grown by the
    number of pushes; from a fresh list the type is the largest declared
    type, [kRect] when nothing was pushed. *)
Theorem push_all_type_is_max_declared (T : Type) (l : GrQuadListBase.t T)
    (qs : list (GrQuadListBase.AnyQuad * GrQuadType * T)) :
  GrQuadListBase.quadType (GrQuadListBase.push_all l qs) =
    max_declared (GrQuadListBase.quadType l) qs /\
  GrQuadListBase.count (GrQuadListBase.push_all l qs) =
    GrQuadListBase.count l + Z.of_nat (length qs) /\
  GrQuadListBase.quadType (GrQuadListBase.push_all GrQuadListBase.empty qs) =
    max_declared kRect qs.
Proof.
  destruct (push_all_type_count qs l) as [H1 H2].
  destruct (push_all_type_count qs GrQuadListBase.empty) as [H3 _].
  repeat split; assumption.
Qed.

(** X5.  On a list a client can build, [operator[]] at an index in range
    never reads outside [fXYs] or [fWs]: it returns a quad, whose x and y
    lanes are those of the stored item. *)
Theorem operator_index_in_bounds (T : Type) (l : GrQuadListBase.t T) (i : Z) :
  GrQuadListBase.reachable l ->
  0 <= i < GrQuadListBase.count l ->
  exists d q,
    GrQuadListBase.item l i = Some d /\
    GrQuadListBase.operator_index l i = Some q /\
    GrPerspQuad.fX q = QuadData.fX d /\
    GrPerspQuad.fY q = QuadData.fY d.
Proof.
  intros Hr Hi. apply reachable_ws_shape in Hr.
  destruct (operator_index_in_range l i Hr Hi) as [q Hq].
  rewrite item_in_range by exact Hi.
  pose proof Hq as Hq'.
  unfold GrQuadListBase.operator_index in Hq'. rewrite in_range_true in Hq' by exact Hi.
  destruct (nth_error (GrQuadListBase.fXYs l) (Z.to_nat i)) as [d|]; [|discriminate].
  exists d, q. split; [reflexivity|]. split; [exact Hq|].
  destruct (GrQuadType_eqb (GrQuadListBase.fType l) kPerspective);
    [destruct (read4 (GrQuadListBase.fWs l) (4 * i)); [|discriminate]|];
    injection Hq' as <-; split; reflexivity.
Qed.

Lemma operator_index_in_bounds_witness :
  exists d q,
    GrQuadListBase.item Sample.persp_list 0 = Some d /\
    GrQuadListBase.operator_index Sample.persp_list 0 = Some q /\
    GrPerspQuad.fX q = QuadData.fX d /\
    GrPerspQuad.fY q = QuadData.fY d.
Proof.
  apply (operator_index_in_bounds unit Sample.persp_list 0).
  - apply GrQuadListBase.reach_push_back, GrQuadListBase.reach_empty.
  - vm_compute. split; [discriminate | reflexivity].
Defined.

(** X6.  A list a client can build that has no entries is the fresh
    list: its tracked type is [kRect] and its w array is empty.  Only an
    entry can raise the type. *)
Theorem reachable_without_entries_is_fresh (T : Type) (l : GrQuadListBase.t T) :
  GrQuadListBase.reachable l ->
  GrQuadListBase.count l = 0 ->
  l = GrQuadListBase.empty /\ GrQuadListBase.quadType l = kRect.
Proof.
  intros Hr Hc. pose proof (reachable_no_entries l Hr Hc) as ->.
  split; reflexivity.
Qed.

Lemma reachable_without_entries_is_fresh_witness :
  GrQuadListBase.concat (GrQuadListBase.empty (T := unit))
    (GrQuadListBase.reserve GrQuadListBase.empty 8 kPerspective) = GrQuadListBase.empty.
Proof.
  apply (reachable_without_entries_is_fresh unit).
  - apply GrQuadListBase.reach_concat;
      [|apply GrQuadListBase.reach_reserve]; apply GrQuadListBase.reach_empty.
  - reflexivity.
Defined.

(** X7.  The fresh list is neutral for [concat]: appending it changes
    nothing, whatever the receiver, and appending a list a client can
    build to a fresh list gives that list back. *)
Theorem concat_fresh_is_neutral (T : Type) (l : GrQuadListBase.t T) :
  GrQuadListBase.concat l GrQuadListBase.empty = l /\
  (GrQuadListBase.reachable l -> GrQuadListBase.concat GrQuadListBase.empty l = l).
Proof.
  split; [apply concat_empty_r|].
  intros Hr. apply concat_empty_l, reachable_ws_shape, Hr.
Qed.

Lemma concat_fresh_is_neutral_witness :
  GrQuadListBase.concat GrQuadListBase.empty Sample.persp_list = Sample.persp_list.
Proof.
  apply (concat_fresh_is_neutral unit Sample.persp_list).
  apply GrQuadListBase.reach_push_back, GrQuadListBase.reach_empty.
Defined.

(** X8.  [concat] is associative on lists a client can build: appending
    [B] then [C] to [A] gives the same list, w array included, as appending
    to [A] the list [B] with [C] appended. *)
Theorem concat_associative (T : Type) (A B C : GrQuadListBase.t T) :
  GrQuadListBase.reachable A ->
  GrQuadListBase.reachable B ->
  GrQuadListBase.reachable C ->
  GrQuadListBase.concat (GrQuadListBase.concat A B) C =
  GrQuadListBase.concat A (GrQuadListBase.concat B C).
Proof.
  intros HA HB HC. apply concat_assoc_shape; apply reachable_ws_shape; assumption.
Qed.

Lemma concat_associative_witness :
  GrQuadListBase.concat (GrQuadListBase.concat Sample.affine_list Sample.persp_list)
    Sample.affine_list =
  GrQuadListBase.concat Sample.affine_list
    (GrQuadListBase.concat Sample.persp_list Sample.affine_list).
Proof.
  apply (concat_associative unit);
    apply GrQuadListBase.reach_push_back, GrQuadListBase.reach_empty.
Defined.

(** X9.  The two [pushBackImpl] overloads agree on affine quads: pushing
    a [GrPerspQuad] whose four weights are [1.f] gives the same list as
    pushing the [GrQuad] with the same x and y, for every receiver, type
    argument and metadata. *)
Theorem push_overloads_agree_on_unit_weights (T : Type) (l : GrQuadListBase.t T)
    (xs ys : float4) (type : GrQuadType) (md : T) :
  GrQuadListBase.pushBackImpl_persp l (GrPerspQuad.mk xs ys kNoPerspectiveWs) type md =
  GrQuadListBase.pushBackImpl_quad l (GrQuad.mk xs ys) type md.
Proof.
  unfold GrQuadListBase.pushBackImpl_persp, GrQuadListBase.pushBackImpl_quad.
  destruct (GrQuadType_eqb
              (GrQuadListBase.fType (GrQuadListBase.upgradeType l type)) kPerspective);
    reflexivity.
Qed.

Section ConcatAsPushes.

Context {T : Type}.
Import GrQuadListBase.

Implicit Types l that A B C : GrQuadListBase.t T.

Lemma GrQuadType_max_absorb (a b : GrQuadType) :
  GrQuadType_max (GrQuadType_max a b) b = GrQuadType_max a b.
Proof. destruct a, b; reflexivity. Qed.

Lemma read4_cons4 (a b c e : float) (ws : list float) (k : nat) :
  read4 (a :: b :: c :: e :: ws) (Z.of_nat (4 * S k)) = read4 ws (Z.of_nat (4 * k)).
Proof.
  unfold read4. rewrite !Nat2Z.id.
  replace (4 * S k)%nat with (S (S (S (S (4 * k))))) by lia.
  reflexivity.
Qed.

(** What the [k]-th element of [entries_of] is. *)
Lemma nth_error_entries_of (xys : list (QuadData.t T)) (ws : list float)
    (ty : GrQuadType) (k : nat) :
  length ws = (4 * length xys)%nat ->
  nth_error (entries_of xys ws ty) k =
    match nth_error xys k, read4 ws (Z.of_nat (4 * k)) with
    | Some d, Some w4 =>
        Some (PerspQuad (GrPerspQuad.mk (QuadData.fX d) (QuadData.fY d) w4),
              ty, QuadData.fMetadata d)
    | _, _ => None
    end.
Proof.
  revert ws k. induction xys as [|d rest IH]; intros ws k Hlen.
  - destruct k; reflexivity.
  - destruct ws as [|a [|b [|c [|e ws']]]]; cbn [length] in Hlen; try lia.
    destruct k as [|k].
    + reflexivity.
    + cbn [entries_of nth_error]. rewrite IH by lia.
      rewrite read4_cons4. reflexivity.
Qed.

Lemma entries_of_length (xys : list (QuadData.t T)) (ws : list float) (ty : GrQuadType) :
  length ws = (4 * length xys)%nat -> length (entries_of xys ws ty) = length xys.
Proof.
  revert ws. induction xys as [|d rest IH]; intros ws Hlen; [reflexivity|].
  destruct ws as [|a [|b [|c [|e ws']]]]; cbn [length] in Hlen; try lia.
  cbn [entries_of length]. rewrite IH by lia. reflexivity.
Qed.

(** Pushing the entries one by one appends them, lanes and weights. *)
Lemma push_all_entries_of (xys : list (QuadData.t T)) (ws : list float)
    (ty : GrQuadType) A :
  ws_shape A = true ->
  length ws = (4 * length xys)%nat ->
  (ty <> kPerspective -> ws = repeat F32.one (4 * length xys)) ->
  ws_shape (push_all A (entries_of xys ws ty)) = true /\
  fType (push_all A (entries_of xys ws ty)) =
    match xys with [] => fType A | _ :: _ => GrQuadType_max (fType A) ty end /\
  fXYs (push_all A (entries_of xys ws ty)) = fXYs A ++ xys /\
  explicit_ws (push_all A (entries_of xys ws ty)) = explicit_ws A ++ ws.
Proof.
  revert ws A. induction xys as [|d rest IH]; intros ws A HA Hlen Hones.
  - destruct ws; [|discriminate Hlen].
    cbn. rewrite !app_nil_r. repeat split; assumption.
  - destruct ws as [|a [|b [|c [|e ws']]]]; cbn [length] in Hlen; try lia.
    cbn [entries_of push_all fold_left fst snd].
    set (q0 := PerspQuad (GrPerspQuad.mk (QuadData.fX d) (QuadData.fY d) (Float4 a b c e))).
    set (A1 := push_back A q0 ty (QuadData.fMetadata d)).
    assert (Hw : pushed_ws A q0 ty = [a; b; c; e]).
    { unfold q0. cbn [pushed_ws GrPerspQuad.fW].
      destruct (GrQuadType_eqb (GrQuadType_max (fType A) ty) kPerspective) eqn:Em;
        [reflexivity|].
      assert (Hty : ty <> kPerspective).
      { intros ->. rewrite GrQuadType_max_perspective_r in Em. discriminate Em. }
      specialize (Hones Hty). cbn [length] in Hones.
      replace (4 * S (length rest))%nat with (S (S (S (S (4 * length rest))))) in Hones
        by lia.
      cbn [repeat] in Hones. injection Hones as -> -> -> -> _. reflexivity. }
    destruct (IH ws' A1) as (H1 & H2 & H3 & H4).
    + apply push_back_ws_shape, HA.
    + lia.
    + intros Hty. specialize (Hones Hty). cbn [length] in Hones.
      replace (4 * S (length rest))%nat with (S (S (S (S (4 * length rest))))) in Hones
        by lia.
      cbn [repeat] in Hones. injection Hones as _ _ _ _ ->. reflexivity.
    + unfold push_all in H1, H2, H3, H4.
      split; [exact H1|]. split; [|split].
      * rewrite H2. unfold A1. rewrite push_back_fType.
        destruct rest; [reflexivity | apply GrQuadType_max_absorb].
      * rewrite H3. unfold A1. rewrite push_back_fXYs, <- app_assoc.
        unfold q0. cbn [AnyQuad_fX AnyQuad_fY GrPerspQuad.fX GrPerspQuad.fY].
        destruct d; reflexivity.
      * rewrite H4. unfold A1. rewrite push_back_explicit_ws by exact HA.
        rewrite Hw, <- app_assoc. reflexivity.
Qed.

End ConcatAsPushes.

(** X10.  On lists a client can build, [concat] is the same as pushing
    the argument's entries one at a time: each entry of [B] as
    [operator[]] reads it, with [B]'s tracked type as the type argument
    and the entry's metadata.  The list of those entries has one element
    per index of [B], holding what [operator[]] and [metadata] return
    there. *)
Theorem concat_is_push_of_entries (T : Type) (A B : GrQuadListBase.t T) :
  GrQuadListBase.reachable A ->
  GrQuadListBase.reachable B ->
  GrQuadListBase.concat A B = GrQuadListBase.push_all A (entries B) /\
  Z.of_nat (length (entries B)) = GrQuadListBase.count B /\
  (forall i, 0 <= i < GrQuadListBase.count B ->
     exists q md,
       GrQuadListBase.operator_index B i = Some q /\
       GrQuadListBase.metadata B i = Some md /\
       nth_error (entries B) (Z.to_nat i) =
         Some (GrQuadListBase.PerspQuad q, GrQuadListBase.quadType B, md)).
Proof.
  intros HA HB.
  pose proof (reachable_ws_shape A HA) as HsA.
  pose proof (reachable_ws_shape B HB) as HsB.
  pose proof (explicit_ws_length B HsB) as Hlen.
  split; [|split].
  - destruct (push_all_entries_of (GrQuadListBase.fXYs B) (GrQuadListBase.explicit_ws B)
                (GrQuadListBase.fType B) A HsA Hlen) as (H1 & H2 & H3 & H4).
    { intros Hty. unfold GrQuadListBase.explicit_ws.
      apply GrQuadType_eqb_neq in Hty. rewrite Hty. reflexivity. }
    apply ws_shape_ext.
    + apply concatImpl_ws_shape; assumption.
    + exact H1.
    + unfold GrQuadListBase.concat, entries. rewrite concatImpl_fType, H2.
      destruct (GrQuadListBase.fXYs B) eqn:Ex; [|reflexivity].
      rewrite (reachable_no_entries B HB)
        by (unfold GrQuadListBase.count; rewrite Ex; reflexivity).
      apply GrQuadType_max_kRect_r.
    + unfold GrQuadListBase.concat, entries. rewrite concatImpl_fXYs, H3. reflexivity.
    + unfold GrQuadListBase.concat, entries.
      rewrite concatImpl_explicit_ws, H4 by assumption. reflexivity.
  - unfold entries, GrQuadListBase.count. rewrite entries_of_length by exact Hlen.
    reflexivity.
  - intros i Hi.
    unfold entries. rewrite nth_error_entries_of by exact Hlen.
    rewrite operator_index_explicit by exact HsB.
    rewrite in_range_true by exact Hi.
    unfold GrQuadListBase.metadata. rewrite item_in_range by exact Hi.
    unfold GrQuadListBase.count in Hi.
    destruct (nth_error (GrQuadListBase.fXYs B) (Z.to_nat i)) as [d|] eqn:En;
      [|apply nth_error_None in En; lia].
    replace (Z.of_nat (4 * Z.to_nat i)) with (4 * i) by lia.
    destruct (read4_in_range (GrQuadListBase.explicit_ws B) (4 * i)) as [w4 Hw];
      [rewrite Hlen; lia|].
    rewrite Hw. eexists; eexists. repeat split.
Qed.

Lemma concat_is_push_of_entries_witness :
  GrQuadListBase.concat Sample.affine_list Sample.persp_list =
  GrQuadListBase.push_all Sample.affine_list
    [(GrQuadListBase.PerspQuad Sample.persp, kPerspective, tt)].
Proof.
  apply (concat_is_push_of_entries unit Sample.affine_list Sample.persp_list);
    apply GrQuadListBase.reach_push_back, GrQuadListBase.reach_empty.
Defined.

(* ================================================================== *)
(** * The float order and bounding boxes *)

Ltac order_cases :=
  repeat match goal with
  | s : bool |- _ => destruct s
  end;
  cbn [order_key fst snd];
  repeat match goal with
  | |- context [Z.compare ?a ?b] => destruct (Z.compare_spec a b)
  | |- context [Pos.compare_cont Eq ?a ?b] =>
      change (Pos.compare_cont Eq a b) with (Pos.compare a b);
      destruct (Pos.compare_spec a b)
  end;
  cbn [CompOpp];
  split; intros; try discriminate; try reflexivity; try lia.

Lemma ltb_key (x y : float) :
  is_nan x = false -> is_nan y = false ->
  (F32.ltb x y = true <-> key_lt (order_key x) (order_key y)).
Proof.
  unfold F32.ltb, SFltb, SFcompare, key_lt.
  destruct x as [sx|sx| |sx mx ex], y as [sy|sy| |sy my ey];
    cbn [is_nan]; intros Hx Hy; try discriminate; order_cases.
Qed.

Lemma leb_key (x y : float) :
  is_nan x = false -> is_nan y = false ->
  (F32_leb x y = true <-> key_le (order_key x) (order_key y)).
Proof.
  unfold F32_leb, SFleb, SFcompare, key_le.
  destruct x as [sx|sx| |sx mx ex], y as [sy|sy| |sy my ey];
    cbn [is_nan]; intros Hx Hy; try discriminate; order_cases.
Qed.

Lemma ltb_not_nan (x y : float) :
  F32.ltb x y = true -> is_nan x = false /\ is_nan y = false.
Proof.
  unfold F32.ltb, SFltb, SFcompare.
  destruct x as [sx|sx| |sx mx ex], y as [sy|sy| |sy my ey];
    intros H; try discriminate H; split; reflexivity.
Qed.

Lemma ltb_irrefl (x : float) : F32.ltb x x = false.
Proof.
  destruct (F32.ltb x x) eqn:E; [|reflexivity].
  destruct (ltb_not_nan x x E) as [Hx _].
  apply (ltb_key x x Hx Hx) in E. unfold key_lt in E. lia.
Qed.

Lemma ltb_asym (x y : float) : F32.ltb x y = true -> F32.ltb y x = false.
Proof.
  intros H. destruct (ltb_not_nan x y H) as [Hx Hy].
  destruct (F32.ltb y x) eqn:E; [|reflexivity].
  apply (ltb_key x y Hx Hy) in H. apply (ltb_key y x Hy Hx) in E.
  unfold key_lt in *. lia.
Qed.

Lemma leb_refl (x : float) : is_nan x = false -> F32_leb x x = true.
Proof. intros Hx. apply (leb_key x x Hx Hx). unfold key_le. lia. Qed.

Lemma leb_trans (x y z : float) :
  is_nan x = false -> is_nan y = false -> is_nan z = false ->
  F32_leb x y = true -> F32_leb y z = true -> F32_leb x z = true.
Proof.
  intros Hx Hy Hz Hxy Hyz.
  apply (leb_key x y Hx Hy) in Hxy. apply (leb_key y z Hy Hz) in Hyz.
  apply (leb_key x z Hx Hz). unfold key_le in *. lia.
Qed.

Lemma ltb_leb (x y : float) : F32.ltb x y = true -> F32_leb x y = true.
Proof.
  intros H. destruct (ltb_not_nan x y H) as [Hx Hy].
  apply (ltb_key x y Hx Hy) in H. apply (leb_key x y Hx Hy).
  unfold key_lt, key_le in *. lia.
Qed.

Lemma not_ltb_leb (x y : float) :
  is_nan x = false -> is_nan y = false ->
  F32.ltb x y = false -> F32_leb y x = true.
Proof.
  intros Hx Hy H. apply (leb_key y x Hy Hx).
  assert (Hn : ~ key_lt (order_key x) (order_key y)).
  { intros K. apply (ltb_key x y Hx Hy) in K. congruence. }
  unfold key_lt, key_le in *. lia.
Qed.

(** [SkTMin] of two values other than NaN is one of them, is not NaN,
    and is at most either. *)
Lemma SkTMin_spec (a b : float) :
  is_nan a = false -> is_nan b = false ->
  is_nan (Sk4f.SkTMin a b) = false /\
  F32_leb (Sk4f.SkTMin a b) a = true /\ F32_leb (Sk4f.SkTMin a b) b = true.
Proof.
  intros Ha Hb. unfold Sk4f.SkTMin.
  destruct (F32.ltb a b) eqn:E.
  - repeat split; [exact Ha | apply leb_refl, Ha | apply ltb_leb, E].
  - repeat split; [exact Hb | apply not_ltb_leb; assumption | apply leb_refl, Hb].
Qed.

Lemma SkTMax_spec (a b : float) :
  is_nan a = false -> is_nan b = false ->
  is_nan (Sk4f.SkTMax a b) = false /\
  F32_leb a (Sk4f.SkTMax a b) = true /\ F32_leb b (Sk4f.SkTMax a b) = true.
Proof.
  intros Ha Hb. unfold Sk4f.SkTMax.
  destruct (F32.ltb b a) eqn:E.
  - repeat split; [exact Ha | apply leb_refl, Ha | apply ltb_leb, E].
  - repeat split; [exact Hb | apply not_ltb_leb; assumption | apply leb_refl, Hb].
Qed.

Lemma float4_no_nan_lanes (a : float4) :
  float4_no_nan a = true ->
  is_nan (at0 a) = false /\ is_nan (at1 a) = false /\
  is_nan (at2 a) = false /\ is_nan (at3 a) = false.
Proof.
  unfold float4_no_nan. rewrite !andb_true_iff, !negb_true_iff. tauto.
Qed.

(** The reduction [min()] is below every lane, [max()] above. *)
Lemma Sk4f_min_max_lanes (a : float4) (i : Z) (v : float) :
  float4_no_nan a = true ->
  float4_get a i = Some v ->
  F32_leb (Sk4f.min a) v = true /\ F32_leb v (Sk4f.max a) = true.
Proof.
  intros Hn Hv. apply float4_no_nan_lanes in Hn. destruct Hn as (H0 & H1 & H2 & H3).
  unfold Sk4f.min, Sk4f.max.
  destruct (SkTMin_spec (at0 a) (at1 a) H0 H1) as (Nl & Ll0 & Ll1).
  destruct (SkTMin_spec (at2 a) (at3 a) H2 H3) as (Nh & Lh2 & Lh3).
  destruct (SkTMin_spec _ _ Nl Nh) as (Nm & Lml & Lmh).
  destruct (SkTMax_spec (at0 a) (at1 a) H0 H1) as (Nl' & Ll0' & Ll1').
  destruct (SkTMax_spec (at2 a) (at3 a) H2 H3) as (Nh' & Lh2' & Lh3').
  destruct (SkTMax_spec _ _ Nl' Nh') as (Nm' & Lml' & Lmh').
  unfold float4_get in Hv.
  destruct i as [|p|p]; [ | | discriminate Hv].
  - injection Hv as <-.
    split; [exact (leb_trans _ _ _ Nm Nl H0 Lml Ll0)
           | exact (leb_trans _ _ _ H0 Nl' Nm' Ll0' Lml')].
  - destruct p as [p|p|]; [destruct p; try discriminate Hv
                          | destruct p; try discriminate Hv | ];
      injection Hv as <-.
    + split; [exact (leb_trans _ _ _ Nm Nh H3 Lmh Lh3)
             | exact (leb_trans _ _ _ H3 Nh' Nm' Lh3' Lmh')].
    + split; [exact (leb_trans _ _ _ Nm Nh H2 Lmh Lh2)
             | exact (leb_trans _ _ _ H2 Nh' Nm' Lh2' Lmh')].
    + split; [exact (leb_trans _ _ _ Nm Nl H1 Lml Ll1)
             | exact (leb_trans _ _ _ H1 Nl' Nm' Ll1' Lml')].
Qed.

(** The reductions return one of the lanes. *)
Lemma Sk4f_min_max_in (a : float4) :
  In (Sk4f.min a) (float4_to_list a) /\ In (Sk4f.max a) (float4_to_list a).
Proof.
  unfold Sk4f.min, Sk4f.max, Sk4f.SkTMin, Sk4f.SkTMax, float4_to_list.
  split.
  - destruct (F32.ltb (at0 a) (at1 a)), (F32.ltb (at2 a) (at3 a));
      match goal with |- In (if ?c then _ else _) _ => destruct c end;
      cbn [In]; tauto.
  - destruct (F32.ltb (at1 a) (at0 a)), (F32.ltb (at3 a) (at2 a));
      match goal with |- In (if ?c then _ else _) _ => destruct c end;
      cbn [In]; tauto.
Qed.

Lemma SkTMin_same (x : float) : Sk4f.SkTMin x x = x.
Proof. unfold Sk4f.SkTMin. destruct (F32.ltb x x); reflexivity. Qed.

Lemma SkTMax_same (x : float) : Sk4f.SkTMax x x = x.
Proof. unfold Sk4f.SkTMax. destruct (F32.ltb x x); reflexivity. Qed.

Lemma SkTMin_sorted (a b : float) :
  F32.ltb a b = true \/ a = b -> Sk4f.SkTMin a b = a /\ Sk4f.SkTMax a b = b.
Proof.
  intros [H| ->].
  - unfold Sk4f.SkTMin, Sk4f.SkTMax. rewrite H, (ltb_asym a b H). split; reflexivity.
  - rewrite SkTMin_same, SkTMax_same. split; reflexivity.
Qed.

Lemma SkTMin_inverted (a b : float) :
  F32.ltb b a = true -> Sk4f.SkTMin a b = b /\ Sk4f.SkTMax a b = a.
Proof.
  intros H. unfold Sk4f.SkTMin, Sk4f.SkTMax.
  rewrite H, (ltb_asym b a H). split; reflexivity.
Qed.

(** X11.  The bounds of the quad built from a rectangle: when the
    rectangle is sorted on both axes (left below right or the same value,
    top below bottom or the same value) [GrQuad(rect).bounds()] is the
    rectangle itself; when it is inverted on both axes the bounds are the
    rectangle with its edges swapped back into order. *)
Theorem bounds_of_rect_quad (rect : SkRect) :
  ((F32.ltb (fLeft rect) (fRight rect) = true \/ fLeft rect = fRight rect) ->
   (F32.ltb (fTop rect) (fBottom rect) = true \/ fTop rect = fBottom rect) ->
   GrQuad.bounds (GrQuad.of_rect rect) = rect) /\
  (F32.ltb (fRight rect) (fLeft rect) = true ->
   F32.ltb (fBottom rect) (fTop rect) = true ->
   GrQuad.bounds (GrQuad.of_rect rect) =
     mkSkRect (fRight rect) (fBottom rect) (fLeft rect) (fTop rect)).
Proof.
  destruct rect as [l t r b]; cbn [fLeft fTop fRight fBottom].
  unfold GrQuad.bounds, GrQuad.of_rect, GrQuad.x4f, GrQuad.y4f, Sk4f.Load,
    Sk4f.min, Sk4f.max; cbn [GrQuad.fX GrQuad.fY at0 at1 at2 at3 fLeft fTop fRight fBottom].
  rewrite !SkTMin_same, !SkTMax_same.
  split.
  - intros Hx Hy.
    destruct (SkTMin_sorted l r Hx) as [-> ->].
    destruct (SkTMin_sorted t b Hy) as [-> ->].
    rewrite ?SkTMin_same, ?SkTMax_same. reflexivity.
  - intros Hx Hy.
    destruct (SkTMin_inverted l r Hx) as [-> ->].
    destruct (SkTMin_inverted t b Hy) as [-> ->].
    rewrite ?SkTMin_same, ?SkTMax_same. reflexivity.
Qed.

Lemma bounds_of_rect_quad_witness :
  GrQuad.bounds (GrQuad.of_rect Sample.rect) = Sample.rect /\
  GrQuad.bounds (GrQuad.of_rect (mkSkRect Sample.four F32.two F32.zero F32.zero)) =
    Sample.rect.
Proof.
  split.
  - apply (proj1 (bounds_of_rect_quad Sample.rect)); left; reflexivity.
  - apply (proj2 (bounds_of_rect_quad (mkSkRect Sample.four F32.two F32.zero F32.zero)));
      reflexivity.
Defined.

(** X12.  [GrQuad::bounds()] is a tight bounding box.  Each edge of the
    result is one of the quad's own coordinates.  When no coordinate is
    NaN, every corner lies inside: left <= x(i) <= right and
    top <= y(i) <= bottom for each of the four corners.  [GrPerspQuad]'s
    [bounds(type)] is the same box for a type other than [kPerspective]. *)
Theorem bounds_contains_corners (q : GrQuad.t) :
  (In (fLeft (GrQuad.bounds q)) (float4_to_list (GrQuad.fX q)) /\
   In (fRight (GrQuad.bounds q)) (float4_to_list (GrQuad.fX q)) /\
   In (fTop (GrQuad.bounds q)) (float4_to_list (GrQuad.fY q)) /\
   In (fBottom (GrQuad.bounds q)) (float4_to_list (GrQuad.fY q))) /\
  (float4_no_nan (GrQuad.fX q) = true -> float4_no_nan (GrQuad.fY q) = true ->
   forall (i : Z) (x y : float),
     GrQuad.x q i = Some x -> GrQuad.y q i = Some y ->
     F32_leb (fLeft (GrQuad.bounds q)) x = true /\
     F32_leb x (fRight (GrQuad.bounds q)) = true /\
     F32_leb (fTop (GrQuad.bounds q)) y = true /\
     F32_leb y (fBottom (GrQuad.bounds q)) = true) /\
  (forall (invert : Sk4f.t -> Sk4f.t) (ws : float4) (type : GrQuadType),
     type <> kPerspective ->
     GrPerspQuad.bounds invert (GrPerspQuad.mk (GrQuad.fX q) (GrQuad.fY q) ws) type =
     GrQuad.bounds q).
Proof.
  unfold GrQuad.bounds, GrQuad.x4f, GrQuad.y4f, Sk4f.Load;
    cbn [fLeft fTop fRight fBottom].
  split; [|split].
  - destruct (Sk4f_min_max_in (GrQuad.fX q)) as [H1 H2].
    destruct (Sk4f_min_max_in (GrQuad.fY q)) as [H3 H4].
    repeat split; assumption.
  - intros Hx Hy i x y Hix Hiy.
    destruct (Sk4f_min_max_lanes (GrQuad.fX q) i x Hx Hix) as [H1 H2].
    destruct (Sk4f_min_max_lanes (GrQuad.fY q) i y Hy Hiy) as [H3 H4].
    repeat split; assumption.
  - intros invert ws type Hty. apply GrQuadType_eqb_neq in Hty.
    unfold GrPerspQuad.bounds, GrPerspQuad.x4f, GrPerspQuad.y4f, Sk4f.Load.
    rewrite Hty. reflexivity.
Qed.

Lemma bounds_contains_corners_witness :
  F32_leb (fLeft (GrQuad.bounds Sample.quad)) Sample.four = true /\
  F32_leb F32.two (fBottom (GrQuad.bounds Sample.quad)) = true.
Proof.
  destruct (proj1 (proj2 (bounds_contains_corners Sample.quad)) eq_refl eq_refl
              3 Sample.four F32.two eq_refl eq_refl) as (H1 & _ & _ & H4).
  split; assumption.
Defined.

Lemma neb_one_false (x : float) : F32.neb x F32.one = false -> x = F32.one.
Proof.
  unfold F32.neb, F32.one, SFeqb, SFcompare.
  destruct x as [s|s| |s m e]; try (destruct s); cbn [negb]; try discriminate.
  destruct (Z.compare_spec e (-23)) as [He|He|He]; cbn [negb]; try discriminate.
  change (Pos.compare_cont Eq m 8388608) with (Pos.compare m 8388608).
  destruct (Pos.compare_spec m 8388608) as [Hm|Hm|Hm]; cbn [negb]; try discriminate.
  intros _. subst. reflexivity.
Qed.

Lemma mul_splat_one (a : float4) :
  float4_valid a = true -> Sk4f.mul a (Sk4f.splat F32.one) = a.
Proof.
  intros H. apply float4_valid_lanes in H. destruct H as (H0 & H1 & H2 & H3).
  unfold Sk4f.mul, Sk4f.splat, float4_map2. cbn [at0 at1 at2 at3].
  rewrite !mul_one_r by assumption. destruct a; reflexivity.
Qed.


(** Without perspective the four weights are [1.f]. *)
Lemma no_perspective_weights (q : GrPerspQuad.t) :
  GrPerspQuad.hasPerspective q = false -> GrPerspQuad.fW q = kNoPerspectiveWs.
Proof.
  intros Hp.
  unfold GrPerspQuad.hasPerspective, GrPerspQuad.w4f, Sk4f.Load, Sk4f.ne,
    Sk4f.anyTrue, Sk4f.splat in Hp.
  cbn [at0 at1 at2 at3] in Hp.
  apply orb_false_iff in Hp. destruct Hp as [Hp H3].
  apply orb_false_iff in Hp. destruct Hp as [Hp H2].
  apply orb_false_iff in Hp. destruct Hp as [H0 H1].
  apply neb_one_false in H0, H1, H2, H3.
  destruct (GrPerspQuad.fW q) as [w0 w1 w2 w3]. cbn [at0 at1 at2 at3] in *.
  subst. reflexivity.
Qed.

(** X13.  For a quad that [hasPerspective()] reports as free of
    perspective, and an [Sk4f::invert()] that maps [1.f] to [1.f] in
    every lane, the type passed to [bounds] does not matter: with valid
    float coordinates, [bounds(type)] is the box of the raw x and y for
    every type, [kPerspective] included. *)
Theorem bounds_without_perspective (invert : Sk4f.t -> Sk4f.t)
    (q : GrPerspQuad.t) (type : GrQuadType) :
  invert (Sk4f.splat F32.one) = Sk4f.splat F32.one ->
  GrPerspQuad.hasPerspective q = false ->
  float4_valid (GrPerspQuad.fX q) = true ->
  float4_valid (GrPerspQuad.fY q) = true ->
  GrPerspQuad.bounds invert q type =
    GrQuad.bounds (GrQuad.mk (GrPerspQuad.fX q) (GrPerspQuad.fY q)).
Proof.
  intros Hinv Hp Hx Hy.
  pose proof (no_perspective_weights q Hp) as Hw.
  unfold GrPerspQuad.bounds, GrPerspQuad.iw4f, GrPerspQuad.x4f, GrPerspQuad.y4f,
    GrPerspQuad.w4f, Sk4f.Load, GrQuad.bounds, GrQuad.x4f, GrQuad.y4f.
  cbn [GrQuad.fX GrQuad.fY]. rewrite Hw.
  change kNoPerspectiveWs with (Sk4f.splat F32.one). rewrite Hinv.
  destruct (GrQuadType_eqb type kPerspective); [|reflexivity].
  rewrite !mul_splat_one by assumption. reflexivity.
Qed.

Lemma bounds_without_perspective_witness :
  GrPerspQuad.bounds Sk4f.invert_ieee
    (GrPerspQuad.mk (GrQuad.fX Sample.quad) (GrQuad.fY Sample.quad) kNoPerspectiveWs)
    kPerspective = Sample.rect.
Proof.
  rewrite (bounds_without_perspective Sk4f.invert_ieee
             (GrPerspQuad.mk (GrQuad.fX Sample.quad) (GrQuad.fY Sample.quad)
                kNoPerspectiveWs) kPerspective eq_refl eq_refl eq_refl eq_refl).
  reflexivity.
Defined.


(* ================================================================== *)
(** * Bounds of a perspective quad *)






(* ================================================================== *)
(** * The push_back contract *)




